(** * Session core of the train-system frontend

    A shallow embedding of the authentication / session code of the
    frontend: the auth context ([hooks/useAuth]), the admin route guard
    ([components/common/AdminProtectedRoute]), the two axios clients with
    their interceptors and [handleApiError] ([services/api]), and the
    delay bucketing of [utils/dateUtils].

    Browser state (localStorage, [window.location]) and the React state of
    [AuthProvider] are threaded explicitly through a small state-and-throw
    monad; how an awaited request settles is an input of each operation. *)

From Stdlib Require Import ZArith Bool.
From stdpp Require Import base option list strings gmap pretty.

Local Open Scope string_scope.
Local Open Scope Z_scope.

(** ** JavaScript strings *)

Module Js.

(** [s.startsWith(p)]. *)
Fixpoint startsWith (s p : string) {struct p} : bool :=
  match p, s with
  | EmptyString, _ => true
  | String c p', String d s' => if Ascii.eqb c d then startsWith s' p' else false
  | String _ _, EmptyString => false
  end.

(** [s.includes(sub)]: [sub] occurs somewhere in [s]. *)
Fixpoint includes (s sub : string) : bool :=
  startsWith s sub ||
  match s with
  | EmptyString => false
  | String _ s' => includes s' sub
  end.

(** Truthiness of a string: only the empty string is falsy. *)
Definition truthy (s : string) : bool :=
  match s with EmptyString => false | String _ _ => true end.

(** Truthiness of a possibly [null]/[undefined] string. *)
Definition truthy_opt (o : option string) : bool :=
  match o with Some s => truthy s | None => false end.

(** [o || dflt] on a possibly undefined string. *)
Definition or_else (o : option string) (dflt : string) : string :=
  match o with
  | Some s => if truthy s then s else dflt
  | None => dflt
  end.

(** [xs.includes(x)] on an array of strings. *)
Definition array_includes (xs : list string) (x : string) : bool :=
  bool_decide (x ∈ xs).

End Js.

(** ** Data model ([types/index.ts]) *)

Module Types.

Record UnifiedUser := {
  id : Z;
  email : string;
  is_admin : bool;
  roles : list string;
  created_at : string;
  updated_at : string;
  name : option string;
  username : option string;
  full_name : option string;
  is_active : option bool;
  is_2fa_enabled : option bool;
  last_login : option string;
}.

Record AuthResponse := {
  access_token : string;
  token_type : string;
  user : UnifiedUser;
}.

Record ApiError := {
  detail : string;
  status_code : Z;
}.

Record UserLoginRequest := {
  login_email : string;
  login_password : string;
}.

Record UserRegisterRequest := {
  register_name : string;
  register_email : string;
  register_password : string;
}.

End Types.
Import Types.

(** ** Delay bucketing ([utils/dateUtils.ts]) *)

Module DateUtils.

Inductive DelayKind := on_time | slight_delay | delayed.

(** A JavaScript number as [getDelayStatus] meets it: an integer, or
    [NaN] when one of the dates did not parse. *)
Inductive JsNumber := Num (z : Z) | NaN.

Record DelayStatus := {
  status : DelayKind;
  delay : JsNumber;
  message : string;
}.

(** [parseISO(s).getTime()]: milliseconds since the epoch, [None] for an
    invalid date (whose [getTime()] is [NaN]). *)
Definition Timestamp := option Z.

(** [Math.floor((estimated.getTime() - scheduled.getTime()) / (1000 * 60))].
    [getTime()] of a valid date is an integer of magnitude at most
    8.64e15. The code computes in doubles: when the two dates are at
    most 2^53 ms apart the difference is exact and the floor of the
    quotient is that of integer arithmetic, which is what this
    definition computes; for dates further apart the code's difference
    is rounded to a double first and its quotient can be one more than
    the value here, so nothing is stated about that value there. *)
Definition delayMinutes (scheduled estimated : Timestamp) : JsNumber :=
  match scheduled, estimated with
  | Some s, Some e => Num ((e - s) `div` (1000 * 60))
  | _, _ => NaN
  end.

(** The template [`${delayMinutes} min late`]. *)
Definition min_late (d : JsNumber) : string :=
  match d with
  | Num z => pretty z ++ " min late"
  | NaN => "NaN min late"
  end.

(** Comparisons with [NaN] are false, so an unparseable date falls
    through both tests. *)
Definition getDelayStatus (scheduled estimated : Timestamp) : DelayStatus :=
  let d := delayMinutes scheduled estimated in
  match d with
  | Num z =>
      if z <=? 0 then
        {| status := on_time; delay := Num 0; message := "On time" |}
      else if z <=? 5 then
        {| status := slight_delay; delay := d; message := min_late d |}
      else
        {| status := delayed; delay := d; message := min_late d |}
  | NaN => {| status := delayed; delay := d; message := min_late d |}
  end.

End DateUtils.

(** ** Route guards *)

Module Guards.

(** What a guard returns. [NavigateTo to from] is
    [<Navigate to=.. state={{ from: location }} replace />]. *)
Inductive View :=
| Spinner
| NavigateTo (to : string) (from : string)
| AccessDenied
| Children.

Definition is_redirect (v : View) : bool :=
  match v with NavigateTo _ _ => true | _ => false end.

(** [requiredRole && !user.roles?.includes(requiredRole)] *)
Definition lacks_required_role (requiredRole : option string) (u : UnifiedUser) : bool :=
  match requiredRole with
  | None => false
  | Some r => Js.truthy r && negb (Js.array_includes (roles u) r)
  end.

(** [AdminProtectedRoute] ([components/common/AdminProtectedRoute.tsx]). *)
Definition AdminProtectedRoute
    (isLoading : bool) (user : option UnifiedUser)
    (requiredRole : option string) (location : string) : View :=
  if isLoading then Spinner
  else match user with
       | None => NavigateTo "/admin/login" location
       | Some u =>
           if negb (is_admin u) then NavigateTo "/admin/login" location
           else if lacks_required_role requiredRole u then AccessDenied
           else Children
       end.

(** Modelled from the spec: [components/common/ProtectedRoute.tsx], the
    General Guard, which [App.tsx] imports and wraps around [/dashboard].
    Section 4.4: while [isLoading], render a loading placeholder; once
    resolved, if unauthenticated, redirect to [/login] carrying the
    attempted path; else render children. *)
Definition ProtectedRoute
    (isLoading : bool) (user : option UnifiedUser) (location : string) : View :=
  if isLoading then Spinner
  else match user with
       | None => NavigateTo "/login" location
       | Some _ => Children
       end.

End Guards.

(** ** The browser, the provider state and the monad of effects *)

Module Eff.

Inductive Method := GET | POST.

(** Observable actions, oldest first in [log]. *)
Inductive Action :=
| StorageSet (key value : string)
| StorageRemove (key : string)
| Assign (href : string)
| Request (m : Method) (url : string) (authorization : option string)
| ConsoleError (msg : string).

(** An axios error as the handlers inspect it: [error.response] (with
    its [status] and [data?.detail]), [error.request], [error.message]. *)
Record ErrorResponse := {
  status : Z;
  data_detail : option string;
}.

Record AxiosError := {
  response : option ErrorResponse;
  request : bool;
  message : option string;
}.

(** How an awaited request settles. *)
Inductive Settled (A : Type) :=
| Fulfilled (data : A)
| Rejected (error : AxiosError).
Arguments Fulfilled {A} data.
Arguments Rejected {A} error.

(** Values that are thrown. *)
Inductive Exn :=
| OfAxios (e : AxiosError)
| Error (msg : string).

Record World := {
  (* the browser *)
  localStorage : gmap string string;
  pathname : string;
  log : list Action;
  (* useState of AuthProvider *)
  user : option UnifiedUser;
  isLoading : bool;
  skipInitialization : bool;
  (* useEffect of AuthProvider: the dependency array at its last run
     (None before mount), how often initializeAuth got past its latch
     test, and how many of its /auth/me calls are awaited *)
  effectDeps : option bool;
  resolverRuns : nat;
  awaited : nat;
}.

Inductive Result (A : Type) :=
| Returned (a : A)
| Thrown (e : Exn).
Arguments Returned {A} a.
Arguments Thrown {A} e.

Definition M (A : Type) : Type := World → Result A * World.

Definition ret {A} (a : A) : M A := λ w, (Returned a, w).

Definition bind {A B} (m : M A) (k : A → M B) : M B :=
  λ w, match m w with
       | (Returned a, w') => k a w'
       | (Thrown e, w') => (Thrown e, w')
       end.

Definition throw {A} (e : Exn) : M A := λ w, (Thrown e, w).

(** [try { body } catch (error) { handler }] *)
Definition try_catch {A} (body : M A) (handler : Exn → M A) : M A :=
  λ w, match body w with
       | (Returned a, w') => (Returned a, w')
       | (Thrown e, w') => handler e w'
       end.

Definition gets {A} (f : World → A) : M A := λ w, (Returned (f w), w).
Definition modify (f : World → World) : M unit := λ w, (Returned tt, f w).

Definition exec {A} (m : M A) (w : World) : World := snd (m w).
Definition eval {A} (m : M A) (w : World) : Result A := fst (m w).

Declare Scope eff_scope.
Delimit Scope eff_scope with eff.
Bind Scope eff_scope with M.
Notation "x <- m ;; k" := (bind m (λ x, k))
  (at level 100, m at next level, right associativity) : eff_scope.
Notation "m ;; k" := (bind m (λ _, k))
  (at level 100, right associativity) : eff_scope.

Definition emit (a : Action) (w : World) : World :=
  {| localStorage := localStorage w; pathname := pathname w;
     log := log w ++ [a];
     user := user w; isLoading := isLoading w;
     skipInitialization := skipInitialization w;
     effectDeps := effectDeps w; resolverRuns := resolverRuns w;
     awaited := awaited w |}.

Definition with_storage (f : gmap string string → gmap string string) (w : World) : World :=
  {| localStorage := f (localStorage w); pathname := pathname w;
     log := log w;
     user := user w; isLoading := isLoading w;
     skipInitialization := skipInitialization w;
     effectDeps := effectDeps w; resolverRuns := resolverRuns w;
     awaited := awaited w |}.

Definition with_user (u : option UnifiedUser) (w : World) : World :=
  {| localStorage := localStorage w; pathname := pathname w;
     log := log w;
     user := u; isLoading := isLoading w;
     skipInitialization := skipInitialization w;
     effectDeps := effectDeps w; resolverRuns := resolverRuns w;
     awaited := awaited w |}.

Definition with_isLoading (b : bool) (w : World) : World :=
  {| localStorage := localStorage w; pathname := pathname w;
     log := log w;
     user := user w; isLoading := b;
     skipInitialization := skipInitialization w;
     effectDeps := effectDeps w; resolverRuns := resolverRuns w;
     awaited := awaited w |}.

Definition with_skipInitialization (b : bool) (w : World) : World :=
  {| localStorage := localStorage w; pathname := pathname w;
     log := log w;
     user := user w; isLoading := isLoading w;
     skipInitialization := b;
     effectDeps := effectDeps w; resolverRuns := resolverRuns w;
     awaited := awaited w |}.

Definition with_effect (deps : option bool) (runs pending : nat) (w : World) : World :=
  {| localStorage := localStorage w; pathname := pathname w;
     log := log w;
     user := user w; isLoading := isLoading w;
     skipInitialization := skipInitialization w;
     effectDeps := deps; resolverRuns := runs; awaited := pending |}.

(** *** localStorage and window.location *)

Definition localStorage_getItem (key : string) : M (option string) :=
  gets (λ w, localStorage w !! key).

Definition localStorage_setItem (key value : string) : M unit :=
  modify (λ w, emit (StorageSet key value) (with_storage (insert key value) w)).

Definition localStorage_removeItem (key : string) : M unit :=
  modify (λ w, emit (StorageRemove key) (with_storage (delete key) w)).

Definition location_pathname : M string := gets pathname.

(** [window.location.href = href] starts a full navigation; the page
    keeps running until it is unloaded, so [pathname] stays. *)
Definition location_assign (href : string) : M unit :=
  modify (emit (Assign href)).

Definition console_error (msg : string) : M unit :=
  modify (emit (ConsoleError msg)).

(** *** useState setters *)

Definition setUser (u : option UnifiedUser) : M unit := modify (with_user u).
Definition setIsLoading (b : bool) : M unit := modify (with_isLoading b).
Definition setSkipInitialization (b : bool) : M unit :=
  modify (with_skipInitialization b).

End Eff.

(** ** The HTTP clients ([services/api.ts]) *)

Module Api.
Import Eff.
Local Open Scope eff_scope.

(** The two axios instances; they differ in where a 401 sends the
    browser. *)
Inductive Surface := api | adminApi.

Definition login_href (s : Surface) : string :=
  match s with
  | api => "/login"
  | adminApi => "/admin/login"
  end.

(** The [Authorization] header for the stored token, if there is one. *)
Definition bearer (w : World) : option string :=
  match localStorage w !! "authToken" with
  | Some t => if Js.truthy t then Some ("Bearer " ++ t) else None
  | None => None
  end.

(** Request interceptor: attach the stored token when there is one and
    let the request go out either way. *)
Definition request_interceptor (s : Surface) (m : Method) (url : string) : M unit :=
  token <- localStorage_getItem "authToken" ;;
  modify (emit (Request m url
                  (match token with
                   | Some t => if Js.truthy t then Some ("Bearer " ++ t) else None
                   | None => None
                   end))).

(** [error.response?.status === 401] *)
Definition is_401 (e : AxiosError) : bool :=
  match response e with
  | Some r => status r =? 401
  | None => false
  end.

(** Response interceptor, error side. *)
Definition response_error_interceptor {A} (s : Surface) (error : AxiosError) : M A :=
  (if is_401 error then
     localStorage_removeItem "authToken" ;;
     p <- location_pathname ;;
     if negb (Js.includes p "/login")
     then location_assign (login_href s)
     else ret tt
   else ret tt) ;;
  throw (OfAxios error).

(** Response interceptor, both sides: [(response) => response] and the
    error handler. *)
Definition response_interceptor {A} (s : Surface) (o : Settled A) : M A :=
  match o with
  | Fulfilled data => ret data
  | Rejected error => response_error_interceptor s error
  end.

(** One call through a client: the request goes out, then the answer
    comes back through the response interceptor. *)
Definition call {A} (s : Surface) (m : Method) (url : string) (o : Settled A) : M A :=
  request_interceptor s m url ;;
  response_interceptor s o.

(** [handleApiError]; its argument is whatever was caught by the callers
    here: an axios error or an [Error]. [data?.detail] and [message],
    when present, are strings, as [ApiError] declares [detail]. *)
Definition handleApiError (error : Exn) : ApiError :=
  match error with
  | OfAxios e =>
      match response e with
      | Some r =>
          {| detail := Js.or_else (data_detail r) "An error occurred";
             status_code := status r |}
      | None =>
          if request e then
            {| detail := "Network error - please check your connection";
               status_code := 0 |}
          else
            {| detail := Js.or_else (message e) "An unexpected error occurred";
               status_code := 0 |}
      end
  | Error msg =>
      {| detail := Js.or_else (Some msg) "An unexpected error occurred";
         status_code := 0 |}
  end.

(** [authService] *)
Definition authService_register (userData : UserRegisterRequest)
    (o : Settled AuthResponse) : M AuthResponse :=
  call api POST "/auth/register" o.

Definition authService_login (credentials : UserLoginRequest)
    (o : Settled AuthResponse) : M AuthResponse :=
  call api POST "/auth/login" o.

Definition authService_getCurrentUser (o : Settled UnifiedUser) : M UnifiedUser :=
  call api GET "/auth/me" o.

End Api.

(** ** The auth context ([hooks/useAuth.tsx]) *)

Module Auth.
Import Eff Api.
Local Open Scope eff_scope.

Definition isAuthenticated (w : World) : bool :=
  match user w with Some _ => true | None => false end.

Definition isAdminAuthenticated (w : World) : bool :=
  match user w with Some u => is_admin u | None => false end.

(** [initializeAuth] up to its [await]: the latch test, the token test
    and the request of [authService.getCurrentUser()]. *)
Definition initializeAuth_begin : M unit :=
  skip <- gets skipInitialization ;;
  if skip then ret tt
  else
    modify (λ w, with_effect (effectDeps w) (S (resolverRuns w)) (awaited w) w) ;;
    setIsLoading true ;;
    token <- localStorage_getItem "authToken" ;;
    if Js.truthy_opt token then
      request_interceptor api GET "/auth/me" ;;
      modify (λ w, with_effect (effectDeps w) (resolverRuns w) (S (awaited w)) w)
    else
      setIsLoading false.

(** [initializeAuth] from its [await] on, once the call has settled. *)
Definition initializeAuth_settle (o : Settled UnifiedUser) : M unit :=
  try_catch
    (userData <- response_interceptor api o ;;
     setUser (Some userData))
    (λ error,
       console_error "Failed to get user data:" ;;
       localStorage_removeItem "authToken" ;;
       setUser None) ;;
  setIsLoading false.

Definition login (credentials : UserLoginRequest) (o : Settled AuthResponse)
    : M AuthResponse :=
  try_catch
    (response <- authService_login credentials o ;;
     localStorage_setItem "authToken" (access_token response) ;;
     setUser (Some (Types.user response)) ;;
     setSkipInitialization true ;;
     ret response)
    (λ error,
       let apiError := handleApiError error in
       throw (Error (detail apiError))).

Definition register (userData : UserRegisterRequest) (o : Settled AuthResponse)
    : M unit :=
  try_catch
    (response <- authService_register userData o ;;
     localStorage_setItem "authToken" (access_token response) ;;
     setUser (Some (Types.user response)))
    (λ error,
       let apiError := handleApiError error in
       throw (Error (detail apiError))).

Definition logout : M unit :=
  localStorage_removeItem "authToken" ;;
  setUser None ;;
  setSkipInitialization false.

Definition hasRole (role : string) : M bool :=
  u <- gets user ;;
  match u with
  | None => ret false
  | Some u => ret (Js.array_includes (roles u) role)
  end.

(** *** The provider as a machine

    [useEffect(() => { ...; initializeAuth(); }, [skipInitialization])]:
    after a render the effect runs when it has not run yet or when
    [skipInitialization] differs from its value at the last run. *)
Definition run_effect : M unit :=
  deps <- gets effectDeps ;;
  skip <- gets skipInitialization ;;
  if bool_decide (deps = Some skip) then ret tt
  else
    modify (λ w, with_effect (Some skip) (resolverRuns w) (awaited w) w) ;;
    initializeAuth_begin.

Inductive Event :=
| Mount
| DoLogin (credentials : UserLoginRequest) (o : Settled AuthResponse)
| DoRegister (userData : UserRegisterRequest) (o : Settled AuthResponse)
| DoLogout
| AskRole (role : string)
| MeSettled (o : Settled UnifiedUser).

(** What an event runs before the provider renders again. A settlement
    with no call awaited does not happen. *)
Definition handle (e : Event) : M unit :=
  match e with
  | Mount => ret tt
  | DoLogin credentials o => login credentials o ;; ret tt
  | DoRegister userData o => register userData o
  | DoLogout => logout
  | AskRole role => hasRole role ;; ret tt
  | MeSettled o =>
      n <- gets awaited ;;
      match n with
      | O => ret tt
      | S n' =>
          modify (λ w, with_effect (effectDeps w) (resolverRuns w) n' w) ;;
          initializeAuth_settle o
      end
  end.

(** One event: its handler (what it throws goes to its caller), then the
    render and the effect. *)
Definition step (e : Event) (w : World) : World :=
  exec run_effect (exec (handle e) w).

Definition run (es : list Event) (w : World) : World :=
  foldl (λ w e, step e w) w es.

(** A freshly loaded page: what [useState] is initialised with. *)
Definition fresh (storage : gmap string string) (path : string) : World :=
  {| localStorage := storage; pathname := path; log := [];
     user := None; isLoading := true; skipInitialization := false;
     effectDeps := None; resolverRuns := 0%nat; awaited := 0%nat |}.

(** The session as the spec speaks of it: token, identity, latch. *)
Definition session (w : World) : option string * option UnifiedUser * bool :=
  (localStorage w !! "authToken", user w, skipInitialization w).

(** The effect is in step with the state it depends on. *)
Definition settled (w : World) : Prop :=
  effectDeps w = Some (skipInitialization w).

(** The latch after an event: set by a successful login, cleared by a
    logout, otherwise kept. *)
Definition latch_after (latch : bool) (e : Event) : bool :=
  match e with
  | DoLogin _ (Fulfilled _) => true
  | DoLogout => false
  | _ => latch
  end.

(** The logouts of a run that find the latch set, that is, those that
    come after a successful login with no other logout in between. *)
Fixpoint relatches (latch : bool) (es : list Event) : nat :=
  match es with
  | [] => 0
  | e :: es' =>
      (match e with
       | DoLogout => if latch then 1 else 0
       | _ => 0
       end + relatches (latch_after latch e) es')%nat
  end.

End Auth.

(** ** The [user] state at run time

    [authService.getCurrentUser] returns the body of the answer as it
    came ([any]) and [setUser] stores what it is given: nothing checks
    that a body has the shape of [UnifiedUser]. *)

Module Runtime.
Import Eff Api Auth.
Local Open Scope eff_scope.

(** The body of a [GET /auth/me] answered with a success status: of the
    declared shape, or anything else, kept here as the text of the
    body. *)
Inductive Body :=
| Shaped (u : UnifiedUser)
| Unshaped (raw : string).

(** The provider with its [user] state as it is at run time: [stray] is
    the body the state holds when that body is no [UnifiedUser]; the
    state then holds no identity, and [user world] is [None]. *)
Record Provider := {
  world : World;
  stray : option string;
}.

(** [setUser(value)] *)
Definition setUser (value : option Body) (p : Provider) : Provider :=
  match value with
  | Some (Shaped u) => {| world := with_user (Some u) (world p); stray := None |}
  | Some (Unshaped raw) => {| world := with_user None (world p); stray := Some raw |}
  | None => {| world := with_user None (world p); stray := None |}
  end.

(** [!!user] *)
Definition isAuthenticated (p : Provider) : bool :=
  match stray p with
  | Some raw => Js.truthy raw
  | None => Auth.isAuthenticated (world p)
  end.

(** [initializeAuth] from its [await] on, the body taken as it comes:
    [try { const userData = await ...; setUser(userData); }
     catch (error) { console.error(..); localStorage.removeItem('authToken');
                     setUser(null); }
     setIsLoading(false);] *)
Definition initializeAuth_settle (o : Settled Body) (p : Provider) : Provider :=
  let p' :=
    match response_interceptor api o (world p) with
    | (Returned userData, w') =>
        setUser (Some userData) {| world := w'; stray := stray p |}
    | (Thrown error, w') =>
        setUser None
          {| world := exec (console_error "Failed to get user data:" ;;
                            localStorage_removeItem "authToken") w';
             stray := stray p |}
    end in
  {| world := with_isLoading false (world p'); stray := stray p' |}.

(** The typed answer seen as a body. *)
Definition of_typed (o : Settled UnifiedUser) : Settled Body :=
  match o with
  | Fulfilled u => Fulfilled (Shaped u)
  | Rejected error => Rejected error
  end.

End Runtime.

(** ** The rest of [utils/dateUtils.ts] *)

Module Durations.

(** [formatDuration], on a whole number of minutes: [Math.floor] rounds
    down, [%] takes the sign of the dividend. The code computes in
    doubles and prints with [String(number)]; this definition follows it
    for every negative whole number and for the non-negative ones below
    2^53 (from there on the code's quotient is rounded and large hours
    print in exponent form). *)
Definition formatDuration (minutes : Z) : string :=
  let hours := minutes `div` 60 in
  let mins := minutes `rem` 60 in
  if 0 <? hours then pretty hours ++ "h " ++ pretty mins ++ "m"
  else pretty mins ++ "m".

(** [isValidDepartureTime], with [now] the value of [new Date()]:
    [isAfter(departure, addMinutes(now, 60))] compares the two
    [getTime()] values with [>]; an invalid date compares false. *)
Definition isValidDepartureTime (departure : DateUtils.Timestamp) (now : Z) : bool :=
  match departure with
  | Some d => now + 60 * 60000 <? d
  | None => false
  end.

End Durations.

(** ** Toast notifications ([contexts/ToastContext.tsx]) *)

Module Toasts.

Inductive ToastType := success | error | warning | info.

(** [Toast]; [action] keeps the label of the button. *)
Record Toast := {
  id : string;
  type : ToastType;
  message : string;
  title : option string;
  duration : option Z;
  action : option string;
}.

(** [Omit<Toast, 'id'>] *)
Record ToastInput := {
  in_type : ToastType;
  in_message : string;
  in_title : option string;
  in_duration : option Z;
  in_action : option string;
}.

(** The [toasts] state of [ToastProvider] and the timers [setTimeout]
    has pending, oldest first: the id each will hide and its delay. *)
Record Tray := {
  toasts : list Toast;
  timers : list (string * Z);
}.

Definition empty : Tray := {| toasts := []; timers := [] |}.

(** [toast.duration || 5000] *)
Definition duration_or_default (d : option Z) : Z :=
  match d with
  | Some z => if z =? 0 then 5000 else z
  | None => 5000
  end.

(** [hideToast]: drop every toast carrying the id. *)
Definition hideToast (i : string) (st : Tray) : Tray :=
  {| toasts := filter (λ t, id t ≠ i) (toasts st); timers := timers st |}.

(** [showToast]; [i] is what [generateId()] returned. *)
Definition showToast (toast : ToastInput) (i : string) (st : Tray) : Tray :=
  let newToast :=
    {| id := i; type := in_type toast; message := in_message toast;
       title := in_title toast;
       duration := Some (duration_or_default (in_duration toast));
       action := in_action toast |} in
  {| toasts := toasts st ++ [newToast];
     timers :=
       match duration newToast with
       | Some d => if 0 <? d then timers st ++ [(i, d)] else timers st
       | None => timers st
       end |}.

Definition show_success (message : string) (title : option string) : ToastInput :=
  {| in_type := success; in_message := message; in_title := title;
     in_duration := None; in_action := None |}.

Definition show_error (message : string) (title : option string) : ToastInput :=
  {| in_type := error; in_message := message; in_title := title;
     in_duration := Some 8000; in_action := None |}.

Definition show_warning (message : string) (title : option string) : ToastInput :=
  {| in_type := warning; in_message := message; in_title := title;
     in_duration := Some 6000; in_action := None |}.

Definition show_info (message : string) (title : option string) : ToastInput :=
  {| in_type := info; in_message := message; in_title := title;
     in_duration := None; in_action := None |}.

(** The [n]-th pending timer fires: it leaves the queue and runs
    [hideToast] on its id. *)
Definition expire (n : nat) (st : Tray) : Tray :=
  match timers st !! n with
  | Some (i, _) =>
      hideToast i {| toasts := toasts st; timers := delete n (timers st) |}
  | None => st
  end.

Inductive Op :=
| Show (toast : ToastInput) (i : string)
| Hide (i : string)
| Expire (n : nat).

Definition apply (o : Op) (st : Tray) : Tray :=
  match o with
  | Show toast i => showToast toast i st
  | Hide i => hideToast i st
  | Expire n => expire n st
  end.

Definition run (os : list Op) (st : Tray) : Tray :=
  foldl (λ st o, apply o st) st os.

(** Each displayed toast has a duration, never 0, and its timer is still
    pending when the duration is positive. *)
Definition timed (st : Tray) : Prop :=
  ∀ t, t ∈ toasts st →
    ∃ d, duration t = Some d ∧ d ≠ 0 ∧ (0 < d → (id t, d) ∈ timers st).

End Toasts.

(** ** The pages that sign in and sign up *)

Module Pages.
Import Eff Api Auth.

(** [err.message] of what a page catches. *)
Definition exn_message (e : Exn) : option string :=
  match e with
  | OfAxios a => message a
  | Error msg => Some msg
  end.

(** The [error] and [isSubmitting] state of a form page. *)
Record Form := {
  error : string;
  isSubmitting : bool;
}.

(** [AdminLoginPage]: [location.state?.from?.pathname || '/admin/dashboard'] *)
Definition admin_login_from (state_from : option string) : string :=
  Js.or_else state_from "/admin/dashboard".

(** [AdminLoginPage.handleSubmit], followed by the provider's render. *)
Definition admin_login_handleSubmit
    (credentials : UserLoginRequest) (o : Settled AuthResponse)
    (w : World) : Form * World :=
  match login credentials o w with
  | (Returned _, w') =>
      ({| error := ""; isSubmitting := false |}, exec run_effect w')
  | (Thrown err, w') =>
      ({| error := Js.or_else (exn_message err)
                     "Login failed. Please check your credentials.";
          isSubmitting := false |},
       exec run_effect w')
  end.

(** The effect of [AdminLoginPage]:
    [if (isAdminAuthenticated) navigate(from, { replace: true })]. *)
Definition admin_login_effect (state_from : option string) (w : World) : option string :=
  if isAdminAuthenticated w then Some (admin_login_from state_from) else None.

(** The fields of [RegisterPage]'s form. *)
Record RegisterForm := {
  form_name : string;
  form_email : string;
  form_password : string;
  form_confirmPassword : string;
}.

(** [RegisterPage.handleSubmit], followed by the provider's render.
    [isSubmitting] is false when a page is idle; the two early returns
    leave it so. The characters of a password stand for the code units
    that [.length] counts. *)
Definition register_handleSubmit
    (formData : RegisterForm) (o : Settled AuthResponse)
    (w : World) : Form * World :=
  if negb (String.eqb (form_password formData) (form_confirmPassword formData)) then
    ({| error := "Passwords do not match"; isSubmitting := false |}, w)
  else if (String.length (form_password formData) <? 6)%nat then
    ({| error := "Password must be at least 6 characters long";
        isSubmitting := false |}, w)
  else
    match register {| register_name := form_name formData;
                      register_email := form_email formData;
                      register_password := form_password formData |} o w with
    | (Returned _, w') =>
        ({| error := ""; isSubmitting := false |}, exec run_effect w')
    | (Thrown err, w') =>
        ({| error := Js.or_else (exn_message err)
                       "Registration failed. Please try again.";
            isSubmitting := false |},
         exec run_effect w')
    end.

(** The effect of [RegisterPage]:
    [if (isAuthenticated) navigate('/dashboard', { replace: true })]. *)
Definition register_effect (w : World) : option string :=
  if isAuthenticated w then Some "/dashboard" else None.

End Pages.

(** ** Reading the log *)

Module Traffic.
Import Eff.

Definition is_me_request (a : Action) : bool :=
  match a with
  | Request GET url _ => String.eqb url "/auth/me"
  | _ => false
  end.

(** How many [GET /auth/me] requests a log holds. *)
Definition me_requests (l : list Action) : nat :=
  length (List.filter is_me_request l).

End Traffic.

(** ** States of the provider *)

Module States.
Import Eff.

(** The effect has nothing to do: its dependency is unchanged, or the
    latch is set, or there is no usable token. *)
Definition quiet (w : World) : Prop :=
  effectDeps w = Some (skipInitialization w) ∨
  skipInitialization w = true ∨
  Js.truthy_opt (localStorage w !! "authToken") = false.

(** Loading is over whenever no identity fetch is awaited. *)
Definition rested (w : World) : Prop :=
  (awaited w <= 1)%nat ∧ (awaited w = 0%nat → isLoading w = false).

End States.

(** ** Sample data *)

Module Sample.

Definition operator : UnifiedUser :=
  {| id := 7; email := "ops@metro.example"; is_admin := true;
     roles := ["operator"];
     created_at := "2024-01-01T00:00:00Z"; updated_at := "2024-01-01T00:00:00Z";
     name := None; username := Some "ops"; full_name := Some "Ops";
     is_active := Some true; is_2fa_enabled := Some false; last_login := None |}.

(** A passenger whose role list nevertheless names ["admin"]. *)
Definition passenger : UnifiedUser :=
  {| id := 1; email := "a@b.com"; is_admin := false;
     roles := ["user"; "admin"];
     created_at := "2024-01-01T00:00:00Z"; updated_at := "2024-01-01T00:00:00Z";
     name := Some "A"; username := None; full_name := None;
     is_active := None; is_2fa_enabled := None; last_login := None |}.

Definition credentials : UserLoginRequest :=
  {| login_email := "a@b.com"; login_password := "x" |}.

Definition registration : UserRegisterRequest :=
  {| register_name := "A"; register_email := "a@b.com"; register_password := "x" |}.

Definition granted : AuthResponse :=
  {| access_token := "T"; token_type := "bearer"; user := passenger |}.

Definition granted_operator : AuthResponse :=
  {| access_token := "T2"; token_type := "bearer"; user := operator |}.

Definition stored_T1 : gmap string string := {[ "authToken" := "T1" ]}.

(** A page loaded on [/dashboard] with token ["T1"] in storage. *)
Definition returning : Eff.World := Auth.fresh stored_T1 "/dashboard".

(** A page loaded on [/] with nothing stored. *)
Definition anonymous : Eff.World := Auth.fresh ∅ "/".

(** An administrator at work on [/admin/stations], token ["T1"]. *)
Definition admin_at_work : Eff.World :=
  Eff.with_isLoading false
    (Eff.with_user (Some operator) (Auth.fresh stored_T1 "/admin/stations")).

(** Somebody on the login page with a stale token ["T1"]. *)
Definition on_login_page : Eff.World :=
  Eff.with_isLoading false (Auth.fresh stored_T1 "/login").

(** A page loaded with token ["T1"], on which an administrator logs in
    while [/auth/me] is still awaited. *)
Definition early_login : Eff.World :=
  Auth.run [Auth.Mount;
            Auth.DoLogin credentials (Eff.Fulfilled granted_operator)] returning.

(** A tray already showing one toast, under the id ["a1"]. *)
Definition one_toast : Toasts.Tray :=
  Toasts.showToast (Toasts.show_success "Saved" None) "a1" Toasts.empty.

(** The page [returning] once mounted, [/auth/me] awaited. *)
Definition returning_awaiting : Runtime.Provider :=
  {| Runtime.world := Auth.step Auth.Mount returning; Runtime.stray := None |}.

Definition unauthorized : Eff.AxiosError :=
  {| Eff.response := Some {| Eff.status := 401;
                             Eff.data_detail := Some "Could not validate credentials" |};
     Eff.request := true;
     Eff.message := Some "Request failed with status code 401" |}.

Definition bad_credentials : Eff.AxiosError :=
  {| Eff.response := Some {| Eff.status := 400;
                             Eff.data_detail := Some "Incorrect email or password" |};
     Eff.request := true;
     Eff.message := Some "Request failed with status code 400" |}.

Definition offline : Eff.AxiosError :=
  {| Eff.response := None; Eff.request := true; Eff.message := Some "Network Error" |}.

End Sample.

(** ** Running the monad *)

Create HintDb eff_unfold.

#[local] Hint Unfold
  Eff.bind Eff.ret Eff.throw Eff.try_catch Eff.gets Eff.modify Eff.exec Eff.eval
  Eff.localStorage_getItem Eff.localStorage_setItem Eff.localStorage_removeItem
  Eff.location_pathname Eff.location_assign Eff.console_error
  Eff.setUser Eff.setIsLoading Eff.setSkipInitialization
  Api.request_interceptor Api.response_error_interceptor Api.response_interceptor
  Api.call Api.authService_login Api.authService_register
  Api.authService_getCurrentUser
  Auth.login Auth.register Auth.logout Auth.hasRole
  Auth.initializeAuth_begin Auth.initializeAuth_settle Auth.run_effect
  : eff_unfold.

Ltac eff_run := autounfold with eff_unfold; simpl.

(** Case analysis on what the response interceptor does with an error. *)
Ltac interceptor_cases error :=
  destruct (Api.is_401 error); simpl;
  [match goal with
   | |- context [Js.includes ?p "/login"] => destruct (Js.includes p "/login"); simpl
   end|].

(** * Properties *)

(** ** Strings *)

Section StringFacts.
Local Open Scope string_scope.

Lemma append_cons (c : Ascii.ascii) (s t : string) :
  String c s ++ t = String c (s ++ t).
Proof. reflexivity. Qed.

Lemma startsWith_spec (s p : string) :
  Js.startsWith s p = true ↔ ∃ rest, s = p ++ rest.
Proof.
  revert s. induction p as [|c p IH]; intros s; simpl.
  - split; [intros _; by exists s | done].
  - destruct s as [|d s].
    + split; [done | intros [rest Hrest]; discriminate].
    + destruct (Ascii.eqb_spec c d) as [->|Hne].
      * rewrite IH. split; intros [rest Hrest]; exists rest.
        -- by rewrite Hrest.
        -- rewrite append_cons in Hrest. congruence.
      * split; [done|]. intros [rest Hrest].
        rewrite append_cons in Hrest. congruence.
Qed.

(** [includes] is the substring test. *)
Lemma includes_spec (s sub : string) :
  Js.includes s sub = true ↔ ∃ pre post, s = pre ++ sub ++ post.
Proof.
  induction s as [|d s IH]; simpl.
  - rewrite orb_false_r, startsWith_spec. split.
    + intros [rest ->]. by exists "", rest.
    + intros [pre [post H]]. destruct pre; [|discriminate].
      exists post. exact H.
  - rewrite orb_true_iff, startsWith_spec, IH. split.
    + intros [[rest ->] | [pre [post ->]]].
      * by exists "", rest.
      * by exists (String d pre), post.
    + intros [pre [post H]]. destruct pre as [|c pre].
      * left. exists post. exact H.
      * right. exists pre, post. rewrite append_cons in H. congruence.
Qed.

End StringFacts.

(** ** Delay bucketing *)

Section DelayFacts.
Import DateUtils.

(** The three buckets cover every delay and exclude one another. *)
Lemma delay_cases (d : Z) :
  (d <= 0 ∧ ¬ 1 <= d <= 5 ∧ ¬ 5 < d) ∨
  (1 <= d <= 5 ∧ ¬ d <= 0 ∧ ¬ 5 < d) ∨
  (5 < d ∧ ¬ d <= 0 ∧ ¬ 1 <= d <= 5).
Proof. lia. Qed.



Example getDelayStatus_message :
  message (getDelayStatus (Some 0) (Some 239000)) = "3 min late".
Proof. reflexivity. Qed.

(** Outside the claim's domain: a date that does not parse yields
    ['delayed'] with delay [NaN]. *)
Example getDelayStatus_invalid_date (estimated : Timestamp) :
  getDelayStatus None estimated
    = {| status := delayed; delay := NaN; message := "NaN min late" |}.
Proof. reflexivity. Qed.

End DelayFacts.

(** ** Route guards *)

Section GuardFacts.
Import Guards.

(** An empty [requiredRole] is falsy and asks for nothing. *)
Lemma lacks_required_role_empty (u : UnifiedUser) :
  lacks_required_role (Some "") u = false.
Proof. reflexivity. Qed.

Lemma lacks_required_role_spec (r : string) (u : UnifiedUser) :
  r ≠ "" → (lacks_required_role (Some r) u = true ↔ r ∉ roles u).
Proof.
  intros Hr. unfold lacks_required_role, Js.array_includes.
  destruct r; [done|]. simpl. rewrite negb_true_iff. apply bool_decide_eq_false.
Qed.

(** A page is loaded with a token in storage and an administrator logs
    in before [/auth/me] has answered: the identity is installed, with
    [is_admin = true], while [isLoading] is still true, and the Admin
    Guard, asked for no role, shows its spinner instead of its children. *)
Lemma admin_guard_spinner_for_admin :
  Eff.user Sample.early_login = Some Sample.operator ∧
  is_admin Sample.operator = true ∧
  Eff.isLoading Sample.early_login = true ∧
  AdminProtectedRoute (Eff.isLoading Sample.early_login) (Eff.user Sample.early_login)
    None "/admin/dashboard" = Spinner ∧
  AdminProtectedRoute (Eff.isLoading Sample.early_login) (Eff.user Sample.early_login)
    None "/admin/dashboard" ≠ Children.
Proof. vm_compute. repeat split; discriminate. Qed.

(** C1, amended. An identity with [is_admin = false] never gets the
    children of the Admin Guard, whatever its roles, the role asked and
    [isLoading]; once loading has ended it is redirected to
    [/admin/login] with the attempted location.  An identity with
    [is_admin = true] gets the children once loading has ended, when the
    call site asks for no role. *)
Theorem admin_guard_exclusive
    (isLoading : bool) (u : UnifiedUser) (requiredRole : option string)
    (location : string) :
  (is_admin u = false →
     AdminProtectedRoute isLoading (Some u) requiredRole location ≠ Children ∧
     (isLoading = false →
        AdminProtectedRoute isLoading (Some u) requiredRole location
          = NavigateTo "/admin/login" location)) ∧
  (is_admin u = true → isLoading = false → requiredRole = None →
     AdminProtectedRoute isLoading (Some u) requiredRole location = Children).
Proof.
  unfold AdminProtectedRoute. split.
  - intros ->. simpl. destruct isLoading; split; done.
  - intros -> -> ->. reflexivity.
Qed.

Lemma admin_guard_exclusive_witness :
  (AdminProtectedRoute false (Some Sample.passenger) (Some "admin") "/admin/users"
     ≠ Children ∧
   AdminProtectedRoute false (Some Sample.passenger) (Some "admin") "/admin/users"
     = NavigateTo "/admin/login" "/admin/users") ∧
  AdminProtectedRoute false (Some Sample.operator) None "/admin/users"
    = Children.
Proof.
  split.
  - pose proof (proj1 (admin_guard_exclusive false Sample.passenger
                          (Some "admin") "/admin/users") eq_refl) as [H1 H2].
    split; [exact H1 | exact (H2 eq_refl)].
  - exact (proj2 (admin_guard_exclusive false Sample.operator None "/admin/users")
              eq_refl eq_refl eq_refl).
Defined.

(** Scenario C: an administrator lacking the role asked for sees the
    in-place denial, not a redirect. *)
Example admin_guard_scenario_C :
  AdminProtectedRoute false (Some Sample.operator) (Some "super_admin")
    "/admin/settings" = AccessDenied.
Proof. reflexivity. Qed.

(** No identity once resolved: redirect with the attempted location. *)
Lemma admin_guard_no_identity (requiredRole : option string) (location : string) :
  AdminProtectedRoute false None requiredRole location
    = NavigateTo "/admin/login" location.
Proof. reflexivity. Qed.

(** C5. In every state of the auth context with [isLoading = true],
    whatever [user] holds, the Admin Guard and the General Guard render
    their loading placeholder, which is not a redirect. *)
Theorem guards_wait_while_loading
    (w : Eff.World) (requiredRole : option string) (location : string) :
  Eff.isLoading w = true →
  AdminProtectedRoute (Eff.isLoading w) (Eff.user w) requiredRole location = Spinner ∧
  ProtectedRoute (Eff.isLoading w) (Eff.user w) location = Spinner ∧
  is_redirect (AdminProtectedRoute (Eff.isLoading w) (Eff.user w) requiredRole location)
    = false ∧
  is_redirect (ProtectedRoute (Eff.isLoading w) (Eff.user w) location) = false.
Proof.
  intros Hl. unfold AdminProtectedRoute, ProtectedRoute. rewrite Hl. done.
Qed.

Lemma guards_wait_while_loading_witness :
  AdminProtectedRoute true None (Some "admin") "/admin/users" = Spinner ∧
  ProtectedRoute true None "/admin/users" = Spinner ∧
  is_redirect (AdminProtectedRoute true None (Some "admin") "/admin/users") = false ∧
  is_redirect (ProtectedRoute true None "/admin/users") = false.
Proof.
  exact (guards_wait_while_loading Sample.returning (Some "admin") "/admin/users" eq_refl).
Defined.

(** Once resolved, the General Guard sends an absent identity to [/login]. *)
Example general_guard_redirects (location : string) :
  ProtectedRoute false None location = NavigateTo "/login" location.
Proof. reflexivity. Qed.

End GuardFacts.

(** ** The auth context: reads and logout *)

Section ContextFacts.
Import Eff Api Auth.

(** C8. [hasRole(r)] returns [false] when the identity is absent, returns
    [true] exactly when [r] is among [identity.roles] when an identity is
    installed, never throws, and leaves the whole state as it was. *)
Theorem hasRole_pure_read (w : World) (r : string) :
  exec (hasRole r) w = w ∧
  (user w = None → eval (hasRole r) w = Returned false) ∧
  (∀ u, user w = Some u →
     ∃ b, eval (hasRole r) w = Returned b ∧ (b = true ↔ r ∈ roles u)).
Proof.
  eff_run. split; [|split].
  - by destruct (user w).
  - by intros ->.
  - intros u ->. simpl. eexists. split; [reflexivity|].
    unfold Js.array_includes. apply bool_decide_eq_true.
Qed.

Lemma hasRole_pure_read_witness :
  eval (hasRole "admin") Sample.anonymous = Returned false ∧
  ∃ b, eval (hasRole "operator") Sample.admin_at_work = Returned b ∧
       (b = true ↔ "operator" ∈ roles Sample.operator).
Proof.
  split.
  - exact (proj1 (proj2 (hasRole_pure_read Sample.anonymous "admin")) eq_refl).
  - exact (proj2 (proj2 (hasRole_pure_read Sample.admin_at_work "operator"))
             Sample.operator eq_refl).
Defined.

Example hasRole_member :
  eval (hasRole "operator") Sample.admin_at_work = Returned true.
Proof. reflexivity. Qed.

Example hasRole_not_member :
  eval (hasRole "super_admin") Sample.admin_at_work = Returned false.
Proof. reflexivity. Qed.

Lemma logout_session (w : World) :
  eval logout w = Returned tt ∧ session (exec logout w) = (None, None, false).
Proof.
  eff_run. split; [done|]. unfold session. simpl. by rewrite lookup_delete_eq.
Qed.

(** The effect never touches token, identity or latch when it starts. *)
Lemma run_effect_session (w : World) :
  session (exec run_effect w) = session w.
Proof.
  eff_run. unfold session.
  destruct (bool_decide _); simpl; [done|].
  destruct (skipInitialization w) eqn:Hs; simpl; [by rewrite Hs|].
  destruct (Js.truthy_opt _); simpl; by rewrite Hs.
Qed.

(** C9. From every state [logout()] returns without throwing and leaves
    the token absent, the identity absent and the latch cleared; a
    second [logout()] leaves that same state.  The same holds when the
    render and effect following each call are taken along. *)
Theorem logout_idempotent (w : World) :
  eval logout w = Returned tt ∧
  session (exec logout w) = (None, None, false) ∧
  session (exec logout (exec logout w)) = session (exec logout w) ∧
  isLoading (exec logout (exec logout w)) = isLoading (exec logout w) ∧
  session (step DoLogout (step DoLogout w)) = session (step DoLogout w) ∧
  session (step DoLogout w) = (None, None, false).
Proof.
  pose proof (logout_session w) as [Hr Hs].
  pose proof (logout_session (exec logout w)) as [_ Hs2].
  repeat split; try done.
  - by rewrite Hs, Hs2.
  - unfold step, handle. rewrite !run_effect_session.
    pose proof (logout_session (exec run_effect (exec logout w))) as [_ Hs3].
    by rewrite Hs3, Hs.
  - unfold step, handle. by rewrite run_effect_session.
Qed.

Example logout_after_login :
  session (step DoLogout
             (step (DoLogin Sample.credentials (Fulfilled Sample.granted))
                (step Mount Sample.anonymous))) = (None, None, false).
Proof. vm_compute. reflexivity. Qed.

End ContextFacts.

(** ** The response interceptors *)

Section InterceptorFacts.
Import Eff Api.

Lemma is_401_spec (error : AxiosError) :
  is_401 error = true ↔ ∃ r, response error = Some r ∧ status r = 401.
Proof.
  unfold is_401. destruct (response error) as [r|].
  - rewrite Z.eqb_eq. split; [intros H; by exists r | intros [r' [[= <-] H]]; done].
  - split; [done | intros [r [[=] _]]].
Qed.

(** Both login routes count as "already on a login page". *)
Lemma login_routes_include_login :
  Js.includes "/login" "/login" = true ∧ Js.includes "/admin/login" "/login" = true.
Proof. split; reflexivity. Qed.

(** C2. On either surface, the response interceptor given an error whose
    response carries status 401 removes the stored token, then assigns
    the surface's login route to [window.location.href] exactly when
    the current pathname does not contain [/login] (so never on
    [/login] or [/admin/login]), touches nothing else, and rejects with
    the same error. *)
Theorem interceptor_401
    (A : Type) (s : Surface) (error : AxiosError) (r : ErrorResponse) (w : World) :
  response error = Some r → status r = 401 →
  eval (response_error_interceptor (A:=A) s error) w = Thrown (OfAxios error) ∧
  localStorage (exec (response_error_interceptor (A:=A) s error) w)
    = delete "authToken" (localStorage w) ∧
  localStorage (exec (response_error_interceptor (A:=A) s error) w) !! "authToken"
    = None ∧
  log (exec (response_error_interceptor (A:=A) s error) w)
    = (log w ++ StorageRemove "authToken" ::
         (if Js.includes (pathname w) "/login" then []
          else [Assign (match s with
                        | api => "/login"
                        | adminApi => "/admin/login"
                        end)]))%list ∧
  (pathname w = "/login" ∨ pathname w = "/admin/login" →
     log (exec (response_error_interceptor (A:=A) s error) w)
       = (log w ++ [StorageRemove "authToken"])%list) ∧
  (user (exec (response_error_interceptor (A:=A) s error) w),
   isLoading (exec (response_error_interceptor (A:=A) s error) w),
   skipInitialization (exec (response_error_interceptor (A:=A) s error) w))
    = (user w, isLoading w, skipInitialization w).
Proof.
  intros Hr H401.
  assert (H : is_401 error = true) by (apply is_401_spec; eauto).
  eff_run. rewrite H. simpl.
  destruct (Js.includes (pathname w) "/login") eqn:Hinc; simpl;
    rewrite ?lookup_delete_eq, <- ?app_assoc; simpl.
  - repeat split; try done.
  - repeat split; try done; try (by destruct s).
    intros [Hp|Hp]; rewrite Hp in Hinc; discriminate.
Qed.

(** Scenario D and P4 on the admin surface; P4 on the general surface
    while already on [/login]. *)
Lemma interceptor_401_witness :
  (eval (response_error_interceptor (A:=unit) adminApi Sample.unauthorized)
     Sample.admin_at_work = Thrown (OfAxios Sample.unauthorized) ∧
   localStorage (exec (response_error_interceptor (A:=unit) adminApi Sample.unauthorized)
                   Sample.admin_at_work) !! "authToken" = None ∧
   log (exec (response_error_interceptor (A:=unit) adminApi Sample.unauthorized)
          Sample.admin_at_work)
     = [StorageRemove "authToken"; Assign "/admin/login"]) ∧
  (localStorage (exec (response_error_interceptor (A:=unit) api Sample.unauthorized)
                   Sample.on_login_page) !! "authToken" = None ∧
   log (exec (response_error_interceptor (A:=unit) api Sample.unauthorized)
          Sample.on_login_page)
     = [StorageRemove "authToken"]).
Proof.
  split.
  - destruct (interceptor_401 unit adminApi Sample.unauthorized _
                Sample.admin_at_work eq_refl eq_refl)
      as (H1 & _ & H3 & H4 & _).
    split; [exact H1 | split; [exact H3 | exact H4]].
  - destruct (interceptor_401 unit api Sample.unauthorized _
                Sample.on_login_page eq_refl eq_refl)
      as (_ & _ & H3 & _ & H5 & _).
    split; [exact H3 | exact (H5 (or_introl eq_refl))].
Defined.

(** Anything but a 401 is rejected as it came, with no effect. *)
Lemma interceptor_other_error (A : Type) (s : Surface) (error : AxiosError) (w : World) :
  is_401 error = false →
  response_error_interceptor (A:=A) s error w = (Thrown (OfAxios error), w).
Proof. intros H. eff_run. by rewrite H. Qed.

(** A response that is not an error passes through unchanged. *)
Lemma interceptor_passes_success (A : Type) (s : Surface) (data : A) (w : World) :
  response_interceptor s (Fulfilled data) w = (Returned data, w).
Proof. reflexivity. Qed.

(** What a rejected call through [api] does to the browser before the
    caller sees the error. *)
Lemma call_rejected (A : Type) (m : Method) (url : string) (error : AxiosError) (w : World) :
  eval (call (A:=A) api m url (Rejected error)) w = Thrown (OfAxios error) ∧
  localStorage (exec (call (A:=A) api m url (Rejected error)) w)
    = (if is_401 error then delete "authToken" (localStorage w) else localStorage w) ∧
  log (exec (call (A:=A) api m url (Rejected error)) w)
    = (log w ++ Request m url (bearer w) ::
         (if is_401 error then
            StorageRemove "authToken" ::
              (if Js.includes (pathname w) "/login" then [] else [Assign "/login"])
          else []))%list ∧
  (user (exec (call (A:=A) api m url (Rejected error)) w),
   isLoading (exec (call (A:=A) api m url (Rejected error)) w),
   skipInitialization (exec (call (A:=A) api m url (Rejected error)) w))
    = (user w, isLoading w, skipInitialization w).
Proof.
  eff_run. unfold bearer.
  interceptor_cases error; rewrite <- ?app_assoc; done.
Qed.

End InterceptorFacts.

(** ** login and register *)

Section LoginFacts.
Import Eff Api Auth.

(** A successful [login]: token stored, identity installed, latch set,
    response returned. *)
Lemma login_success (credentials : UserLoginRequest) (resp : AuthResponse) (w : World) :
  eval (login credentials (Fulfilled resp)) w = Returned resp ∧
  localStorage (exec (login credentials (Fulfilled resp)) w) !! "authToken"
    = Some (access_token resp) ∧
  user (exec (login credentials (Fulfilled resp)) w) = Some (Types.user resp) ∧
  skipInitialization (exec (login credentials (Fulfilled resp)) w) = true ∧
  isLoading (exec (login credentials (Fulfilled resp)) w) = isLoading w.
Proof.
  eff_run. rewrite lookup_insert_eq. done.
Qed.

(** A successful [register]: token stored, identity installed; the latch
    keeps the value it had. *)
Lemma register_success (userData : UserRegisterRequest) (resp : AuthResponse) (w : World) :
  eval (register userData (Fulfilled resp)) w = Returned tt ∧
  localStorage (exec (register userData (Fulfilled resp)) w) !! "authToken"
    = Some (access_token resp) ∧
  user (exec (register userData (Fulfilled resp)) w) = Some (Types.user resp) ∧
  skipInitialization (exec (register userData (Fulfilled resp)) w)
    = skipInitialization w ∧
  isLoading (exec (register userData (Fulfilled resp)) w) = isLoading w.
Proof.
  eff_run. rewrite lookup_insert_eq. done.
Qed.

(** C3. A successful [register] on a freshly loaded page stores the
    token and installs the identity as [login] does, but the latch is
    still unset afterwards, where the same answer given to [login] has
    set it. *)
Theorem register_leaves_latch_unset :
  localStorage (exec (register Sample.registration (Fulfilled Sample.granted))
                  Sample.anonymous) !! "authToken" = Some "T"%string ∧
  user (exec (register Sample.registration (Fulfilled Sample.granted))
          Sample.anonymous) = Some Sample.passenger ∧
  skipInitialization (exec (register Sample.registration (Fulfilled Sample.granted))
                        Sample.anonymous) = false ∧
  skipInitialization (exec (login Sample.credentials (Fulfilled Sample.granted))
                        Sample.anonymous) = true.
Proof. vm_compute. done. Qed.

(** Scenario B. *)
Example login_scenario_B :
  localStorage (step (DoLogin Sample.credentials (Fulfilled Sample.granted))
                  (step Mount Sample.anonymous)) !! "authToken" = Some "T"%string ∧
  isAuthenticated (step (DoLogin Sample.credentials (Fulfilled Sample.granted))
                     (step Mount Sample.anonymous)) = true ∧
  isAdminAuthenticated (step (DoLogin Sample.credentials (Fulfilled Sample.granted))
                          (step Mount Sample.anonymous)) = false.
Proof. vm_compute. done. Qed.

(** A rejected [login] is the rejected call followed by the throw of
    [handleApiError]'s [detail]. *)
Lemma login_rejected (credentials : UserLoginRequest) (error : AxiosError) (w : World) :
  login credentials (Rejected error) w
    = (Thrown (Error (detail (handleApiError (OfAxios error)))),
       exec (call (A:=AuthResponse) api POST "/auth/login" (Rejected error)) w).
Proof.
  pose proof (call_rejected AuthResponse POST "/auth/login" error w) as (Hev & _).
  unfold login, authService_login, try_catch, bind at 1.
  destruct (call api POST "/auth/login" (Rejected error) w) as [res w'] eqn:Hc.
  unfold eval in Hev. rewrite Hc in Hev. simpl in Hev. subst res.
  unfold exec. by rewrite Hc.
Qed.

(** C7. A [login] whose request is rejected throws an [Error] whose
    message is the backend's [detail] when the error carries a response
    with a non-empty one (every 4xx answer is such a response), and the
    fixed connection message when no response was received; it installs
    no identity, leaves [isLoading] and the latch alone, and writes
    nothing to the token store, which is left as it was or, after a 401,
    without the token. *)
Theorem login_failure (credentials : UserLoginRequest) (error : AxiosError) (w : World) :
  (∃ msg, eval (login credentials (Rejected error)) w = Thrown (Error msg)) ∧
  (∀ resp d, response error = Some resp → data_detail resp = Some d → d ≠ ""%string →
     eval (login credentials (Rejected error)) w = Thrown (Error d)) ∧
  (response error = None → request error = true →
     eval (login credentials (Rejected error)) w
       = Thrown (Error "Network error - please check your connection")) ∧
  user (exec (login credentials (Rejected error)) w) = user w ∧
  (user w = None → isAuthenticated (exec (login credentials (Rejected error)) w) = false) ∧
  isLoading (exec (login credentials (Rejected error)) w) = isLoading w ∧
  skipInitialization (exec (login credentials (Rejected error)) w)
    = skipInitialization w ∧
  localStorage (exec (login credentials (Rejected error)) w)
    = (if is_401 error then delete "authToken" (localStorage w) else localStorage w) ∧
  (∀ key value,
     StorageSet key value
       ∉ drop (length (log w)) (log (exec (login credentials (Rejected error)) w))) ∧
  (localStorage w !! "authToken" = None →
     localStorage (exec (login credentials (Rejected error)) w) !! "authToken" = None).
Proof.
  pose proof (call_rejected AuthResponse POST "/auth/login" error w)
    as (_ & Hst & Hlog & Hauth).
  unfold eval, exec at 1 2 3 4 5 6 7. rewrite login_rejected. simpl.
  injection Hauth as Hu Hl Hs.
  repeat split.
  - eauto.
  - intros resp d Hr Hd Hne. rewrite Hr, Hd. simpl.
    destruct d; [done|reflexivity].
  - intros Hr Hq. by rewrite Hr, Hq.
  - done.
  - intros Hnone. unfold isAuthenticated. by rewrite Hu, Hnone.
  - done.
  - done.
  - done.
  - intros key value. rewrite Hlog, drop_app_length.
    destruct (is_401 error); [destruct (Js.includes _ _)|];
      rewrite !not_elem_of_cons; repeat split;
      first [discriminate | apply not_elem_of_nil].
  - intros Hnone. rewrite Hst.
    destruct (is_401 error); [apply lookup_delete_eq | done].
Qed.

Lemma login_failure_witness :
  eval (login Sample.credentials (Rejected Sample.bad_credentials)) Sample.anonymous
    = Thrown (Error "Incorrect email or password") ∧
  eval (login Sample.credentials (Rejected Sample.offline)) Sample.anonymous
    = Thrown (Error "Network error - please check your connection") ∧
  isAuthenticated (exec (login Sample.credentials (Rejected Sample.offline)) Sample.anonymous)
    = false ∧
  localStorage (exec (login Sample.credentials (Rejected Sample.offline)) Sample.anonymous)
    !! "authToken" = None.
Proof.
  destruct (login_failure Sample.credentials Sample.bad_credentials Sample.anonymous)
    as (_ & Hdetail & _).
  destruct (login_failure Sample.credentials Sample.offline Sample.anonymous)
    as (_ & _ & Hnet & _ & Hanon & _ & _ & _ & _ & Htok).
  split; [|split; [|split]].
  - exact (Hdetail _ "Incorrect email or password"%string eq_refl eq_refl
             ltac:(discriminate)).
  - exact (Hnet eq_refl eq_refl).
  - exact (Hanon eq_refl).
  - exact (Htok eq_refl).
Defined.

(** A response without a usable [detail] falls back to a fixed text. *)
Example login_failure_no_detail (credentials : UserLoginRequest) (w : World) :
  eval (login credentials
          (Rejected {| response := Some {| status := 422; data_detail := None |};
                       request := true; message := None |})) w
    = Thrown (Error "An error occurred").
Proof. reflexivity. Qed.

(** Wrong credentials answered with a 401 on a page that is not a login
    page: the interceptor also drops a stored token and sends the
    browser to [/login]. *)
Example login_failure_401 :
  eval (login Sample.credentials (Rejected Sample.unauthorized)) Sample.returning
    = Thrown (Error "Could not validate credentials") ∧
  log (exec (login Sample.credentials (Rejected Sample.unauthorized)) Sample.returning)
    = [Request POST "/auth/login" (Some "Bearer T1");
       StorageRemove "authToken"; Assign "/login"].
Proof. vm_compute. done. Qed.

End LoginFacts.

(** ** The session resolver *)

Section ResolverFacts.
Import Eff Api Auth.

(** The first effect run of a freshly loaded page with no usable token:
    no request, loading over, no identity. *)
Lemma mount_without_token (storage : gmap string string) (path : string) :
  Js.truthy_opt (storage !! "authToken") = false →
  step Mount (fresh storage path)
    = {| localStorage := storage; pathname := path; log := [];
         user := None; isLoading := false; skipInitialization := false;
         effectDeps := Some false; resolverRuns := 1; awaited := 0 |}.
Proof.
  intros Htok. unfold step, handle, fresh. eff_run. by rewrite Htok.
Qed.

(** With a token, the first effect run sends [GET /auth/me] with the
    token attached and waits for it, still loading. *)
Lemma mount_with_token (storage : gmap string string) (path : string) :
  Js.truthy_opt (storage !! "authToken") = true →
  step Mount (fresh storage path)
    = {| localStorage := storage; pathname := path;
         log := [Request GET "/auth/me" (bearer (fresh storage path))];
         user := None; isLoading := true; skipInitialization := false;
         effectDeps := Some false; resolverRuns := 1; awaited := 1 |}.
Proof.
  intros Htok. unfold step, handle, fresh, bearer. eff_run. by rewrite Htok.
Qed.

(** The continuation after the [await], from any state, when the call
    was rejected. *)
Lemma initializeAuth_settle_rejected (error : AxiosError) (w : World) :
  eval (initializeAuth_settle (Rejected error)) w = Returned tt ∧
  localStorage (exec (initializeAuth_settle (Rejected error)) w)
    = delete "authToken" (localStorage w) ∧
  user (exec (initializeAuth_settle (Rejected error)) w) = None ∧
  isLoading (exec (initializeAuth_settle (Rejected error)) w) = false ∧
  skipInitialization (exec (initializeAuth_settle (Rejected error)) w)
    = skipInitialization w.
Proof.
  eff_run. interceptor_cases error; rewrite ?delete_delete_eq; done.
Qed.

(** The continuation after the [await], when the call was fulfilled:
    the body becomes the identity as it is, nothing in it is looked at. *)
Lemma initializeAuth_settle_fulfilled (data : UnifiedUser) (w : World) :
  initializeAuth_settle (Fulfilled data) w
    = (Returned tt, with_isLoading false (with_user (Some data) w)).
Proof. reflexivity. Qed.

(** On typed answers the run-time continuation is the typed one, and no
    stray body is left. *)
Lemma runtime_settle_typed (o : Settled UnifiedUser) (p : Runtime.Provider) :
  Runtime.initializeAuth_settle (Runtime.of_typed o) p
    = {| Runtime.world := exec (initializeAuth_settle o) (Runtime.world p);
         Runtime.stray := None |}.
Proof.
  destruct p as [w stray]. destruct o as [u|error];
    unfold Runtime.initializeAuth_settle; simpl; [reflexivity|].
  eff_run. interceptor_cases error; reflexivity.
Qed.

(** What a fulfilled call does, whatever its body: the token stays,
    loading ends, and the body is what the [user] state holds. *)
Lemma runtime_settle_fulfilled (body : Runtime.Body) (p : Runtime.Provider) :
  localStorage (Runtime.world (Runtime.initializeAuth_settle (Fulfilled body) p))
    = localStorage (Runtime.world p) ∧
  log (Runtime.world (Runtime.initializeAuth_settle (Fulfilled body) p))
    = log (Runtime.world p) ∧
  isLoading (Runtime.world (Runtime.initializeAuth_settle (Fulfilled body) p)) = false ∧
  match body with
  | Runtime.Shaped u =>
      user (Runtime.world (Runtime.initializeAuth_settle (Fulfilled body) p)) = Some u ∧
      Runtime.stray (Runtime.initializeAuth_settle (Fulfilled body) p) = None
  | Runtime.Unshaped raw =>
      Runtime.stray (Runtime.initializeAuth_settle (Fulfilled body) p) = Some raw
  end.
Proof. by destruct body. Qed.

(** A page is loaded with token ["T1"] and [/auth/me] answers with a
    success status and a body that is no identity: the token is still
    stored, the body sits in the [user] state and counts as a session;
    nothing is cleared. *)
Lemma resolver_installs_malformed_body :
  localStorage
    (Runtime.world
       (Runtime.initializeAuth_settle (Fulfilled (Runtime.Unshaped "<!doctype html>"))
          Sample.returning_awaiting)) !! "authToken" = Some "T1"%string ∧
  Runtime.stray
    (Runtime.initializeAuth_settle (Fulfilled (Runtime.Unshaped "<!doctype html>"))
       Sample.returning_awaiting) = Some "<!doctype html>"%string ∧
  Runtime.isAuthenticated
    (Runtime.initializeAuth_settle (Fulfilled (Runtime.Unshaped "<!doctype html>"))
       Sample.returning_awaiting) = true ∧
  localStorage
    (Runtime.world
       (Runtime.initializeAuth_settle (Fulfilled (Runtime.Unshaped "<!doctype html>"))
          Sample.returning_awaiting)) !! "authToken" ≠ None.
Proof. vm_compute. repeat split; discriminate. Qed.

(** C6, amended. On a freshly loaded page: with no usable token the
    resolver finishes at once, sending nothing, with no identity and
    [isLoading = false]; with a token it sends [GET /auth/me] and stays
    loading until the call settles.  When the call is rejected, whatever
    the error and from whatever state (an identity installed meanwhile
    included), the token is removed, the identity is absent and
    [isLoading = false].  When it is fulfilled, whatever the body, the
    body is installed unexamined, the token stays and
    [isLoading = false]. *)
Theorem session_resolver_contract (storage : gmap string string) (path : string) :
  (Js.truthy_opt (storage !! "authToken") = false →
     log (step Mount (fresh storage path)) = [] ∧
     awaited (step Mount (fresh storage path)) = 0%nat ∧
     localStorage (step Mount (fresh storage path)) = storage ∧
     user (step Mount (fresh storage path)) = None ∧
     isAuthenticated (step Mount (fresh storage path)) = false ∧
     isLoading (step Mount (fresh storage path)) = false) ∧
  (Js.truthy_opt (storage !! "authToken") = true →
     log (step Mount (fresh storage path))
       = [Request GET "/auth/me" (bearer (fresh storage path))] ∧
     awaited (step Mount (fresh storage path)) = 1%nat ∧
     isLoading (step Mount (fresh storage path)) = true ∧
     (∀ error,
        localStorage (step (MeSettled (Rejected error)) (step Mount (fresh storage path)))
          !! "authToken" = None ∧
        user (step (MeSettled (Rejected error)) (step Mount (fresh storage path))) = None ∧
        isLoading (step (MeSettled (Rejected error)) (step Mount (fresh storage path)))
          = false ∧
        awaited (step (MeSettled (Rejected error)) (step Mount (fresh storage path)))
          = 0%nat) ∧
     (∀ data,
        localStorage (step (MeSettled (Fulfilled data)) (step Mount (fresh storage path)))
          = storage ∧
        user (step (MeSettled (Fulfilled data)) (step Mount (fresh storage path)))
          = Some data ∧
        isLoading (step (MeSettled (Fulfilled data)) (step Mount (fresh storage path)))
          = false ∧
        awaited (step (MeSettled (Fulfilled data)) (step Mount (fresh storage path)))
          = 0%nat)) ∧
  (∀ (w : World) (error : AxiosError),
     eval (initializeAuth_settle (Rejected error)) w = Returned tt ∧
     localStorage (exec (initializeAuth_settle (Rejected error)) w) !! "authToken" = None ∧
     user (exec (initializeAuth_settle (Rejected error)) w) = None ∧
     isLoading (exec (initializeAuth_settle (Rejected error)) w) = false) ∧
  (∀ (p : Runtime.Provider) (error : AxiosError),
     localStorage (Runtime.world (Runtime.initializeAuth_settle (Rejected error) p))
       !! "authToken" = None ∧
     user (Runtime.world (Runtime.initializeAuth_settle (Rejected error) p)) = None ∧
     Runtime.stray (Runtime.initializeAuth_settle (Rejected error) p) = None ∧
     Runtime.isAuthenticated (Runtime.initializeAuth_settle (Rejected error) p) = false ∧
     isLoading (Runtime.world (Runtime.initializeAuth_settle (Rejected error) p)) = false) ∧
  (∀ (p : Runtime.Provider) (body : Runtime.Body),
     localStorage (Runtime.world (Runtime.initializeAuth_settle (Fulfilled body) p))
       = localStorage (Runtime.world p) ∧
     isLoading (Runtime.world (Runtime.initializeAuth_settle (Fulfilled body) p)) = false ∧
     match body with
     | Runtime.Shaped u =>
         user (Runtime.world (Runtime.initializeAuth_settle (Fulfilled body) p)) = Some u ∧
         Runtime.stray (Runtime.initializeAuth_settle (Fulfilled body) p) = None
     | Runtime.Unshaped raw =>
         Runtime.stray (Runtime.initializeAuth_settle (Fulfilled body) p) = Some raw
     end).
Proof.
  assert (Hrej : ∀ (w : World) (error : AxiosError),
            eval (initializeAuth_settle (Rejected error)) w = Returned tt ∧
            localStorage (exec (initializeAuth_settle (Rejected error)) w)
              !! "authToken" = None ∧
            user (exec (initializeAuth_settle (Rejected error)) w) = None ∧
            isLoading (exec (initializeAuth_settle (Rejected error)) w) = false).
  { intros w error.
    destruct (initializeAuth_settle_rejected error w) as (Hev & Hst & Hu & Hl & _).
    rewrite Hst, lookup_delete_eq. done. }
  split; [|split; [|split; [exact Hrej|split]]].
  - intros Htok. by rewrite (mount_without_token _ _ Htok).
  - intros Htok. rewrite (mount_with_token _ _ Htok). simpl.
    split; [done|]. split; [done|]. split; [done|]. split.
    + intros error. unfold step, handle. eff_run.
      interceptor_cases error; rewrite lookup_delete_eq; done.
    + intros data. done.
  - intros p error.
    pose proof (runtime_settle_typed (Rejected error) p) as Heq. simpl in Heq.
    rewrite Heq. unfold Runtime.isAuthenticated, isAuthenticated. simpl.
    destruct (Hrej (Runtime.world p) error) as (_ & Ht & Hu & Hl).
    rewrite Ht, Hu, Hl. done.
  - intros p body.
    destruct (runtime_settle_fulfilled body p) as (Ht & _ & Hl & Hb). done.
Qed.

(** Scenario A; a returning session whose token the backend no longer
    accepts; and a rejection that arrives after an administrator has
    signed in, which removes that identity too. *)
Lemma session_resolver_contract_witness :
  (log (step Mount Sample.anonymous) = [] ∧
   awaited (step Mount Sample.anonymous) = 0%nat ∧
   localStorage (step Mount Sample.anonymous) = ∅ ∧
   user (step Mount Sample.anonymous) = None ∧
   isAuthenticated (step Mount Sample.anonymous) = false ∧
   isLoading (step Mount Sample.anonymous) = false) ∧
  (localStorage (step (MeSettled (Rejected Sample.unauthorized))
                   (step Mount Sample.returning)) !! "authToken" = None ∧
   user (step (MeSettled (Rejected Sample.unauthorized))
           (step Mount Sample.returning)) = None ∧
   isLoading (step (MeSettled (Rejected Sample.unauthorized))
                (step Mount Sample.returning)) = false ∧
   awaited (step (MeSettled (Rejected Sample.unauthorized))
              (step Mount Sample.returning)) = 0%nat) ∧
  (eval (initializeAuth_settle (Rejected Sample.offline)) Sample.early_login
     = Returned tt ∧
   localStorage (exec (initializeAuth_settle (Rejected Sample.offline)) Sample.early_login)
     !! "authToken" = None ∧
   user (exec (initializeAuth_settle (Rejected Sample.offline)) Sample.early_login) = None ∧
   isLoading (exec (initializeAuth_settle (Rejected Sample.offline)) Sample.early_login)
     = false).
Proof.
  split; [|split].
  - exact (proj1 (session_resolver_contract ∅ "/") eq_refl).
  - assert (Htok : Js.truthy_opt (Sample.stored_T1 !! "authToken") = true)
      by (vm_compute; reflexivity).
    destruct (proj1 (proj2 (session_resolver_contract Sample.stored_T1 "/dashboard")) Htok)
      as (_ & _ & _ & Hrej & _).
    exact (Hrej Sample.unauthorized).
  - exact (proj1 (proj2 (proj2 (session_resolver_contract ∅ "/")))
             Sample.early_login Sample.offline).
Defined.

(** The state of the last case does hold an identity before. *)
Example early_login_has_identity :
  user Sample.early_login = Some Sample.operator.
Proof. vm_compute. reflexivity. Qed.

(** Scenario D, continued: after the 401 the token is gone, so the
    resolver of the page navigated to reports no identity. *)
Example resolver_after_401 :
  user (step Mount
          (fresh (localStorage (exec (response_error_interceptor (A:=unit) adminApi
                                        Sample.unauthorized) Sample.admin_at_work))
             "/admin/login")) = None ∧
  isLoading (step Mount
          (fresh (localStorage (exec (response_error_interceptor (A:=unit) adminApi
                                        Sample.unauthorized) Sample.admin_at_work))
             "/admin/login")) = false.
Proof. vm_compute. done. Qed.

(** The race the latch does not close: a login that completes while
    [/auth/me] is awaited is overwritten when that call is rejected. *)
Example stale_resolution_overwrites_login :
  session (step (MeSettled (Rejected Sample.offline)) Sample.early_login)
    = (None, None, true).
Proof. vm_compute. reflexivity. Qed.

End ResolverFacts.

(** ** How often the resolver runs *)

Section EffectFacts.
Import Eff Api Auth.

Lemma run_effect_settles (w : World) : settled (exec run_effect w).
Proof.
  unfold settled. eff_run.
  destruct (decide (effectDeps w = Some (skipInitialization w))) as [Heq|Hne].
  - rewrite bool_decide_eq_true_2 by done. done.
  - rewrite bool_decide_eq_false_2 by done. simpl.
    destruct (skipInitialization w) eqn:Hs; simpl; [by rewrite Hs|].
    destruct (Js.truthy_opt _); simpl; by rewrite Hs.
Qed.

(** When the dependency changed, the effect runs [initializeAuth], which
    gets past its latch test exactly when the latch is clear. *)
Lemma run_effect_runs (w : World) :
  skipInitialization (exec run_effect w) = skipInitialization w ∧
  resolverRuns (exec run_effect w)
    = (resolverRuns w +
         if bool_decide (effectDeps w = Some (skipInitialization w)) then 0
         else if skipInitialization w then 0 else 1)%nat.
Proof.
  eff_run. destruct (bool_decide _); simpl; [split; [done|lia]|].
  destruct (skipInitialization w) eqn:Hs; simpl; [rewrite Hs; split; [done|lia]|].
  destruct (Js.truthy_opt _); simpl; rewrite Hs; split; (done || lia).
Qed.

(** What the handler of an event does to the effect's bookkeeping. *)
Lemma handle_bookkeeping (e : Event) (w : World) :
  skipInitialization (exec (handle e) w) = latch_after (skipInitialization w) e ∧
  effectDeps (exec (handle e) w) = effectDeps w ∧
  resolverRuns (exec (handle e) w) = resolverRuns w.
Proof.
  destruct e as [|credentials [resp|error]|userData [resp|error]| |role|[data|error]];
    unfold handle; eff_run; try done.
  - interceptor_cases error; done.
  - interceptor_cases error; done.
  - by destruct (user w).
  - by destruct (awaited w).
  - destruct (awaited w); simpl; [done|].
    interceptor_cases error; done.
Qed.

Lemma step_settles (e : Event) (w : World) : settled (step e w).
Proof. apply run_effect_settles. Qed.

(** One event from a settled state: the resolver runs again exactly when
    the event is a logout finding the latch set. *)
Lemma step_runs (e : Event) (w : World) :
  settled w →
  skipInitialization (step e w) = latch_after (skipInitialization w) e ∧
  resolverRuns (step e w)
    = (resolverRuns w + match e with
                        | DoLogout => if skipInitialization w then 1 else 0
                        | _ => 0
                        end)%nat.
Proof.
  intros Hw. unfold step, settled in *.
  destruct (handle_bookkeeping e w) as (Hs & Hd & Hr).
  destruct (run_effect_runs (exec (handle e) w)) as (Hs' & Hr').
  rewrite Hs', Hr', Hs, Hd, Hr, Hw. split; [done|]. f_equal.
  destruct e as [|credentials [resp|error]|userData [resp|error]| |role|o]; simpl;
    destruct (skipInitialization w); done.
Qed.

Lemma run_runs (es : list Event) (w : World) :
  settled w →
  resolverRuns (run es w)
    = (resolverRuns w + relatches (skipInitialization w) es)%nat.
Proof.
  revert w. induction es as [|e es IH]; intros w Hw; simpl.
  - lia.
  - change (foldl _ (step e w) es) with (run es (step e w)).
    rewrite IH by apply step_settles.
    destruct (step_runs e w Hw) as (-> & ->). lia.
Qed.

(** After mount, a successful login and then a logout, the resolver has
    run twice: once at mount and once more when the logout cleared the
    latch. *)
Lemma resolver_runs_again_after_logout :
  resolverRuns (run [Mount; DoLogin Sample.credentials (Fulfilled Sample.granted)]
                  Sample.anonymous) = 1%nat ∧
  resolverRuns (run [Mount; DoLogin Sample.credentials (Fulfilled Sample.granted); DoLogout]
                  Sample.anonymous) = 2%nat ∧
  resolverRuns (run [Mount; DoLogin Sample.credentials (Fulfilled Sample.granted); DoLogout]
                  Sample.anonymous) ≠ 1%nat.
Proof. vm_compute. repeat split; discriminate. Qed.

(** C4, amended. On a freshly loaded page the resolver runs once at
    mount; over any later events it runs once more for each logout that
    finds the latch set (a logout after a successful login with no
    logout in between) and at no other event. *)
Theorem resolver_run_count
    (storage : gmap string string) (path : string) (es : list Event) :
  resolverRuns (step Mount (fresh storage path)) = 1%nat ∧
  resolverRuns (run (Mount :: es) (fresh storage path))
    = (1 + relatches false es)%nat.
Proof.
  assert (H1 : resolverRuns (step Mount (fresh storage path)) = 1%nat).
  { unfold step, handle, fresh. eff_run. by destruct (Js.truthy_opt _). }
  assert (Hs : skipInitialization (step Mount (fresh storage path)) = false).
  { unfold step, handle, fresh. eff_run. by destruct (Js.truthy_opt _). }
  split; [done|].
  change (run (Mount :: es) (fresh storage path))
    with (run es (step Mount (fresh storage path))).
  rewrite run_runs by apply step_settles. by rewrite H1, Hs.
Qed.

(** Without a successful login, or without a logout, once is all. *)
Lemma relatches_no_login (es : list Event) :
  (∀ credentials resp, DoLogin credentials (Fulfilled resp) ∉ es) →
  relatches false es = 0%nat.
Proof.
  induction es as [|e es IH]; intros Hno; simpl; [done|].
  assert (Hlatch : latch_after false e = false).
  { destruct e as [|credentials [resp|error]| | | |]; try done.
    exfalso. apply (Hno credentials resp). apply elem_of_cons. by left. }
  rewrite Hlatch, IH.
  - by destruct e.
  - intros credentials resp Hin. apply (Hno credentials resp).
    apply elem_of_cons. by right.
Qed.

Lemma relatches_no_logout (latch : bool) (es : list Event) :
  DoLogout ∉ es → relatches latch es = 0%nat.
Proof.
  revert latch. induction es as [|e es IH]; intros latch Hno; simpl; [done|].
  apply not_elem_of_cons in Hno as [Hne Hno].
  rewrite IH by done. by destruct e.
Qed.

End EffectFacts.

(** * Further properties of the code *)

(** ** Durations and departure times *)

Section DurationFacts.
Import DateUtils Durations.

(** X1. For a whole number of minutes from 0 up to, not including,
    2^53, [formatDuration] prints the minutes alone below one hour, and
    otherwise hours and minutes that add up to the input, the minutes
    below sixty. *)
Theorem formatDuration_nonneg (minutes : Z) :
  0 <= minutes → minutes < 2 ^ 53 →
  (minutes < 60 → formatDuration minutes = pretty minutes ++ "m") ∧
  (60 <= minutes →
     ∃ h m, formatDuration minutes = pretty h ++ "h " ++ pretty m ++ "m" ∧
            0 < h ∧ 0 <= m < 60 ∧ 60 * h + m = minutes).
Proof.
  intros Hpos _. unfold formatDuration.
  rewrite Z.rem_mod_nonneg by lia. split; intros H.
  - rewrite Z.div_small, Z.mod_small by lia. reflexivity.
  - assert (0 < minutes `div` 60) by (apply Z.div_str_pos; lia).
    destruct (Z.ltb_spec 0 (minutes `div` 60)); [|lia].
    exists (minutes `div` 60), (minutes `mod` 60).
    split; [reflexivity|]. split; [done|].
    pose proof (Z.mod_pos_bound minutes 60).
    pose proof (Z.div_mod minutes 60). lia.
Qed.

Lemma formatDuration_nonneg_witness :
  formatDuration 45 = pretty 45 ++ "m" ∧
  ∃ h m, formatDuration 135 = pretty h ++ "h " ++ pretty m ++ "m" ∧
         0 < h ∧ 0 <= m < 60 ∧ 60 * h + m = 135.
Proof.
  split.
  - apply (formatDuration_nonneg 45); [lia | reflexivity | lia].
  - apply (formatDuration_nonneg 135); [lia | reflexivity | lia].
Defined.

Example formatDuration_135 : formatDuration 135 = "2h 15m".
Proof. reflexivity. Qed.

(** X2. For a negative number of minutes the hour part is never
    printed: the output is the remainder alone, between -59 and 0, so
    inputs that differ by whole hours print the same. *)
Theorem formatDuration_negative (minutes k : Z) :
  minutes < 0 → 0 <= k →
  formatDuration minutes = pretty (minutes `rem` 60) ++ "m" ∧
  -60 < minutes `rem` 60 <= 0 ∧
  formatDuration (minutes - 60 * k) = formatDuration minutes.
Proof.
  intros Hneg Hk.
  assert (Hfmt : ∀ z, z < 0 → formatDuration z = pretty (z `rem` 60) ++ "m").
  { intros z Hz. unfold formatDuration.
    assert (z `div` 60 < 0) by (apply Z.div_lt_upper_bound; lia).
    destruct (Z.ltb_spec 0 (z `div` 60)); [lia|reflexivity]. }
  assert (Hrem : ∀ z, z < 0 → z `rem` 60 = - ((- z) `mod` 60)).
  { intros z Hz. rewrite <- (Z.opp_involutive z) at 1.
    rewrite Z.rem_opp_l by lia. rewrite Z.rem_mod_nonneg by lia. done. }
  split; [by apply Hfmt|]. split.
  - rewrite Hrem by lia. pose proof (Z.mod_pos_bound (- minutes) 60). lia.
  - rewrite !Hfmt by lia. rewrite !Hrem by lia.
    replace (- (minutes - 60 * k)) with (- minutes + k * 60) by lia.
    by rewrite Z.mod_add by lia.
Qed.

Lemma formatDuration_negative_witness :
  formatDuration (-90) = pretty ((-90) `rem` 60) ++ "m" ∧
  -60 < (-90) `rem` 60 <= 0 ∧
  formatDuration (-90 - 60 * 2) = formatDuration (-90).
Proof. apply (formatDuration_negative (-90) 2); lia. Defined.

Example formatDuration_minus_90 : formatDuration (-90) = "-30m".
Proof. reflexivity. Qed.

(** X3. In milliseconds: a train is ['on_time'] exactly when it is less
    than one full minute late (early trains included), ['slight_delay']
    from one minute up to but not including six, ['delayed'] from six
    minutes on; a late train's message counts its whole minutes, for
    dates at most 2^53 ms apart. *)
Theorem getDelayStatus_thresholds (scheduled estimated : Z) :
  (status (getDelayStatus (Some scheduled) (Some estimated)) = on_time
     ↔ estimated - scheduled < 60000) ∧
  (status (getDelayStatus (Some scheduled) (Some estimated)) = slight_delay
     ↔ 60000 <= estimated - scheduled < 360000) ∧
  (status (getDelayStatus (Some scheduled) (Some estimated)) = delayed
     ↔ 360000 <= estimated - scheduled) ∧
  (60000 <= estimated - scheduled → estimated - scheduled <= 2 ^ 53 →
     message (getDelayStatus (Some scheduled) (Some estimated))
       = pretty ((estimated - scheduled) `div` 60000) ++ " min late").
Proof.
  unfold getDelayStatus, delayMinutes. change (1000 * 60) with 60000.
  set (d := (estimated - scheduled) `div` 60000).
  assert (Hd : 60000 * d <= estimated - scheduled < 60000 * d + 60000).
  { pose proof (Z.div_mod (estimated - scheduled) 60000).
    pose proof (Z.mod_pos_bound (estimated - scheduled) 60000). lia. }
  destruct (Z.leb_spec d 0); [|destruct (Z.leb_spec d 5)]; simpl;
    repeat split; intros; try done; try lia.
Qed.

Lemma getDelayStatus_thresholds_witness :
  message (getDelayStatus (Some 0) (Some 239000)) = pretty 3 ++ " min late".
Proof.
  apply (getDelayStatus_thresholds 0 239000).
  - vm_compute. discriminate.
  - vm_compute. discriminate.
Defined.

(** X4. When either date does not parse, the result is ['delayed'] with
    delay [NaN] and the message ["NaN min late"]. *)
Theorem getDelayStatus_unparseable (scheduled estimated : Timestamp) :
  scheduled = None ∨ estimated = None →
  getDelayStatus scheduled estimated
    = {| status := delayed; delay := NaN; message := "NaN min late" |}.
Proof.
  intros [-> | ->]; [reflexivity|]. by destruct scheduled.
Qed.

Lemma getDelayStatus_unparseable_witness :
  getDelayStatus (Some 0) None
    = {| status := delayed; delay := NaN; message := "NaN min late" |}.
Proof. apply getDelayStatus_unparseable. right. reflexivity. Defined.

(** X5. A departure counts as valid only when it lies strictly more than
    one hour after now: a valid departure is in the future, stays valid
    for any earlier "now" and any later departure, while a departure
    exactly one hour ahead, or a date that does not parse, is not valid. *)
Theorem isValidDepartureTime_window (departure now : Z) :
  (isValidDepartureTime (Some departure) now = true →
     now < departure ∧
     ∀ departure' now', departure <= departure' → now' <= now →
       isValidDepartureTime (Some departure') now' = true) ∧
  isValidDepartureTime (Some (now + 3600000)) now = false ∧
  isValidDepartureTime (Some (now + 3600001)) now = true ∧
  isValidDepartureTime None now = false.
Proof.
  unfold isValidDepartureTime. split; [|split; [|split]].
  - intros Hv. apply Z.ltb_lt in Hv. split; [lia|].
    intros d' n' Hd Hn. apply Z.ltb_lt. lia.
  - apply Z.ltb_ge. lia.
  - apply Z.ltb_lt. lia.
  - reflexivity.
Qed.

Lemma isValidDepartureTime_window_witness :
  0 < 7200000 ∧
  ∀ departure' now', 7200000 <= departure' → now' <= 0 →
    isValidDepartureTime (Some departure') now' = true.
Proof. apply (isValidDepartureTime_window 7200000 0). reflexivity. Defined.

End DurationFacts.

(** ** Error texts *)

Section ErrorFacts.
Import Eff Api.

Lemma or_else_nonempty (o : option string) (dflt : string) :
  dflt ≠ ""%string → Js.or_else o dflt ≠ ""%string.
Proof.
  intros Hd. destruct o as [[|c s]|]; simpl; done.
Qed.

(** X6. For an axios error whose response [detail] and whose [message],
    where present, are strings, and for an [Error] with a string message,
    [handleApiError] yields a non-empty [detail]; its [status_code] is
    the response's status when the error carries a response and 0
    otherwise. *)
Theorem handleApiError_total (error : Exn) :
  detail (handleApiError error) ≠ ""%string ∧
  status_code (handleApiError error)
    = match error with
      | OfAxios e => match response e with Some r => status r | None => 0 end
      | Error _ => 0
      end.
Proof.
  destruct error as [e|msg]; simpl.
  - destruct (response e) as [r|]; [|destruct (request e)]; simpl;
      (split; [|done]); try done; by apply or_else_nonempty.
  - split; [|done]. by apply (or_else_nonempty (Some msg)).
Qed.

End ErrorFacts.

(** ** Toasts *)

Section ToastFacts.
Import Toasts.

Lemma toasts_hideToast (i : string) (st : Tray) (t : Toast) :
  t ∈ toasts (hideToast i st) ↔ t ∈ toasts st ∧ id t ≠ i.
Proof. unfold hideToast. simpl. rewrite list_elem_of_filter. tauto. Qed.

Lemma hideToast_absent (i : string) (st : Tray) :
  (∀ t, t ∈ toasts st → id t ≠ i) → hideToast i st = st.
Proof.
  intros Hfresh. destruct st as [ts tm]. unfold hideToast. simpl in *. f_equal.
  induction ts as [|t ts IH]; [done|].
  rewrite filter_cons_True by (apply Hfresh; left).
  f_equal. apply IH. intros t' Ht'. apply Hfresh. by right.
Qed.

(** X7. [hideToast(id)] removes every toast carrying that id and only
    those, keeps the others in their order, does nothing when no toast
    carries the id, does nothing more when repeated, and leaves the
    pending timers alone. *)
Theorem hideToast_removes (i : string) (st : Tray) :
  (∀ t, t ∈ toasts (hideToast i st) ↔ t ∈ toasts st ∧ id t ≠ i) ∧
  toasts (hideToast i st) `sublist_of` toasts st ∧
  ((∀ t, t ∈ toasts st → id t ≠ i) → hideToast i st = st) ∧
  hideToast i (hideToast i st) = hideToast i st ∧
  timers (hideToast i st) = timers st.
Proof.
  split; [apply toasts_hideToast|]. split; [apply sublist_filter|].
  split; [apply hideToast_absent|]. split; [|done].
  apply hideToast_absent. intros t Ht. by apply toasts_hideToast in Ht as [_ Hne].
Qed.

(** X8. Showing a toast under an id no displayed toast carries and then
    hiding that id gives back the list as it was; the new toast sits at
    the end until then. *)
Theorem showToast_hideToast (toast : ToastInput) (i : string) (st : Tray) :
  (∀ t, t ∈ toasts st → id t ≠ i) →
  toasts (hideToast i (showToast toast i st)) = toasts st ∧
  ∃ t, toasts (showToast toast i st) = (toasts st ++ [t])%list ∧
       id t = i ∧ message t = in_message toast ∧ type t = in_type toast.
Proof.
  intros Hfresh. split.
  - unfold hideToast, showToast. simpl. rewrite filter_app.
    rewrite filter_cons_False by (simpl; tauto).
    rewrite filter_nil, app_nil_r.
    pose proof (hideToast_absent i st Hfresh) as Heq.
    apply (f_equal toasts) in Heq. exact Heq.
  - eexists. split; [reflexivity|]. done.
Qed.

(** On a tray that already shows the toast ["a1"]: the new toast
    ["k3x9"] goes behind it, and hiding ["k3x9"] leaves ["a1"] alone. *)
Lemma showToast_hideToast_witness :
  toasts (hideToast "k3x9"
            (showToast (show_error "Failed to load data" None) "k3x9" Sample.one_toast))
    = toasts Sample.one_toast ∧
  ∃ t, toasts (showToast (show_error "Failed to load data" None) "k3x9" Sample.one_toast)
         = (toasts Sample.one_toast ++ [t])%list ∧
       id t = "k3x9"%string ∧ message t = "Failed to load data"%string ∧ type t = error.
Proof.
  apply (showToast_hideToast (show_error "Failed to load data" None) "k3x9"
           Sample.one_toast).
  intros t Ht. vm_compute in Ht. apply list_elem_of_singleton in Ht. subst t.
  simpl. discriminate.
Defined.

Example one_toast_shown :
  toasts Sample.one_toast
    = [{| id := "a1"; type := success; message := "Saved"; title := None;
          duration := Some 5000; action := None |}] ∧
  length (toasts (showToast (show_error "Failed to load data" None) "k3x9"
                    Sample.one_toast)) = 2%nat.
Proof. split; reflexivity. Qed.

Lemma duration_or_default_nonzero (d : option Z) : duration_or_default d ≠ 0.
Proof.
  unfold duration_or_default. destruct d as [z|]; [|done].
  destruct (Z.eqb_spec z 0); [done|done].
Qed.

Lemma elem_of_delete_other {A} (l : list A) (n : nat) (x y : A) :
  x ∈ l → l !! n = Some y → x ≠ y → x ∈ delete n l.
Proof.
  revert n. induction l as [|a l IH]; intros n Hin Hn Hne; [by apply elem_of_nil in Hin|].
  destruct n as [|n]; simpl in *.
  - injection Hn as ->. apply elem_of_cons in Hin as [->|Hin]; done.
  - apply elem_of_cons in Hin as [->|Hin]; [by left|].
    right. by apply IH.
Qed.

Lemma timed_apply (o : Op) (st : Tray) : timed st → timed (apply o st).
Proof.
  intros Hst. destruct o as [toast i|i|n]; simpl.
  - intros t Ht. unfold showToast in *. simpl in *.
    apply elem_of_app in Ht as [Ht|Ht].
    + destruct (Hst t Ht) as (d & Hd & Hnz & Htm). exists d.
      split; [done|]. split; [done|]. intros Hpos.
      destruct (0 <? duration_or_default (in_duration toast));
        [apply elem_of_app; left|]; by apply Htm.
    + apply list_elem_of_singleton in Ht as ->. simpl.
      exists (duration_or_default (in_duration toast)).
      split; [done|]. split; [apply duration_or_default_nonzero|].
      intros Hpos. apply Z.ltb_lt in Hpos. rewrite Hpos.
      apply elem_of_app. right. by apply list_elem_of_singleton.
  - intros t Ht. apply toasts_hideToast in Ht as [Ht _]. by apply Hst.
  - unfold expire. destruct (timers st !! n) as [[i d0]|] eqn:Hn; [|done].
    intros t Ht. apply toasts_hideToast in Ht as [Ht Hne]. simpl in *.
    destruct (Hst t Ht) as (d & Hd & Hnz & Htm). exists d.
    split; [done|]. split; [done|]. intros Hpos.
    apply (elem_of_delete_other _ n _ (i, d0)); [by apply Htm|done|congruence].
Qed.

Lemma timed_run (os : list Op) (st : Tray) : timed st → timed (run os st).
Proof.
  revert st. induction os as [|o os IH]; intros st Hst; [done|].
  simpl. apply IH. by apply timed_apply.
Qed.

(** X9. Starting from an empty tray, after any sequence of [showToast],
    [hideToast] and timer expiries, every displayed toast has a duration
    that is not 0 (an absent or zero duration having become 5000), and
    every displayed toast with a positive duration still has its timer
    pending; only a toast shown with a negative duration stays until it
    is closed by hand. *)
Theorem toasts_always_timed (os : list Op) (t : Toast) :
  t ∈ toasts (run os empty) →
  ∃ d, duration t = Some d ∧ d ≠ 0 ∧
       (0 < d → (id t, d) ∈ timers (run os empty)).
Proof.
  apply (timed_run os empty). intros t' Ht'. by apply elem_of_nil in Ht'.
Qed.

Lemma toasts_always_timed_witness :
  ∃ d, duration {| id := "a1"; type := success; message := "Saved"; title := None;
                   duration := Some 5000; action := None |} = Some d ∧ d ≠ 0 ∧
       (0 < d → ("a1"%string, d)
                  ∈ timers (run [Show (show_success "Saved" None) "a1";
                                 Show (show_error "Oops" None) "b2";
                                 Expire 1] empty)).
Proof.
  apply (toasts_always_timed
           [Show (show_success "Saved" None) "a1";
            Show (show_error "Oops" None) "b2"; Expire 1]
           {| id := "a1"; type := success; message := "Saved"; title := None;
              duration := Some 5000; action := None |}).
  vm_compute. left.
Defined.

(** The helpers' durations: 5000 for success and info, 8000 for error,
    6000 for warning. *)
Example helper_durations (m : string) (i : string) :
  timers (showToast (show_success m None) i empty) = [(i, 5000)] ∧
  timers (showToast (show_error m None) i empty) = [(i, 8000)] ∧
  timers (showToast (show_warning m None) i empty) = [(i, 6000)] ∧
  timers (showToast (show_info m None) i empty) = [(i, 5000)].
Proof. done. Qed.

End ToastFacts.

(** ** The auth context as a whole *)

Section MachineFacts.
Import Eff Api Auth Traffic States Guards.

(** X10. Once loading has ended, the Admin Guard and the context's
    derived flags agree: the guard redirects exactly when
    [isAdminAuthenticated] is false, it renders its children only for a
    state in which [isAdminAuthenticated] and [isAuthenticated] hold, and
    [isAdminAuthenticated] never holds without [isAuthenticated]. *)
Theorem admin_guard_agrees_with_flags
    (w : World) (requiredRole : option string) (location : string) :
  isLoading w = false →
  is_redirect (AdminProtectedRoute (isLoading w) (user w) requiredRole location)
    = negb (isAdminAuthenticated w) ∧
  (AdminProtectedRoute (isLoading w) (user w) requiredRole location = Children →
     isAdminAuthenticated w = true ∧ isAuthenticated w = true) ∧
  (isAdminAuthenticated w = true → isAuthenticated w = true).
Proof.
  intros Hl. unfold AdminProtectedRoute, isAdminAuthenticated, isAuthenticated.
  rewrite Hl. destruct (user w) as [u|]; simpl; [|done].
  destruct (is_admin u); simpl; [|done].
  destruct (lacks_required_role requiredRole u); done.
Qed.

Lemma admin_guard_agrees_with_flags_witness :
  is_redirect (AdminProtectedRoute false (Some Sample.operator) None "/admin/users")
    = negb (isAdminAuthenticated Sample.admin_at_work) ∧
  (AdminProtectedRoute false (Some Sample.operator) None "/admin/users" = Children →
     isAdminAuthenticated Sample.admin_at_work = true ∧
     isAuthenticated Sample.admin_at_work = true) ∧
  (isAdminAuthenticated Sample.admin_at_work = true →
     isAuthenticated Sample.admin_at_work = true).
Proof.
  exact (admin_guard_agrees_with_flags Sample.admin_at_work None "/admin/users" eq_refl).
Defined.

(** The effect reads storage and never writes it. *)
Lemma run_effect_storage (w : World) :
  localStorage (exec run_effect w) = localStorage w.
Proof.
  eff_run. destruct (bool_decide _); simpl; [done|].
  destruct (skipInitialization w); simpl; [done|].
  by destruct (Js.truthy_opt _).
Qed.

(** What a handler does to storage: nothing, the token set to the
    answer's [access_token], or the token removed. *)
Lemma handle_storage (e : Event) (w : World) :
  localStorage (exec (handle e) w)
    = match e with
      | DoLogin _ (Fulfilled r) | DoRegister _ (Fulfilled r) =>
          <["authToken" := access_token r]> (localStorage w)
      | DoLogin _ (Rejected error) | DoRegister _ (Rejected error) =>
          if is_401 error then delete "authToken" (localStorage w) else localStorage w
      | DoLogout => delete "authToken" (localStorage w)
      | MeSettled (Rejected _) =>
          match awaited w with
          | O => localStorage w
          | S _ => delete "authToken" (localStorage w)
          end
      | _ => localStorage w
      end.
Proof.
  destruct e as [|credentials [resp|error]|userData [resp|error]| |role|[data|error]];
    unfold handle; eff_run; try done.
  - interceptor_cases error; done.
  - interceptor_cases error; done.
  - by destruct (user w).
  - by destruct (awaited w).
  - destruct (awaited w); simpl; [done|].
    interceptor_cases error; rewrite ?delete_delete_eq; done.
Qed.

Lemma step_storage (e : Event) (w : World) :
  localStorage (step e w) = localStorage (exec (handle e) w).
Proof. apply run_effect_storage. Qed.

(** X11. No sequence of events ever reads into or changes a localStorage
    key other than [authToken]: every other key keeps its value. *)
Theorem other_keys_untouched (es : list Event) (w : World) (key : string) :
  key ≠ "authToken"%string →
  localStorage (run es w) !! key = localStorage w !! key.
Proof.
  intros Hkey. revert w. induction es as [|e es IH]; intros w; [done|].
  simpl. change (foldl _ (step e w) es) with (run es (step e w)).
  rewrite IH, step_storage, handle_storage.
  destruct e as [|credentials [resp|error]|userData [resp|error]| |role|[data|error]];
    try done;
    try (destruct (is_401 error));
    try (destruct (awaited w));
    rewrite ?lookup_insert_ne, ?lookup_delete_ne by done; done.
Qed.

Lemma other_keys_untouched_witness :
  localStorage (run [Mount; DoLogin Sample.credentials (Fulfilled Sample.granted); DoLogout]
                  (fresh {[ "theme" := "dark" ]} "/")) !! "theme"
    = localStorage (fresh {[ "theme" := "dark" ]} "/") !! "theme".
Proof.
  apply (other_keys_untouched
           [Mount; DoLogin Sample.credentials (Fulfilled Sample.granted); DoLogout]
           (fresh {[ "theme" := "dark" ]} "/") "theme").
  discriminate.
Defined.

(** X12. Only a fulfilled [login] or [register] puts a token into
    storage, and it is the answer's [access_token]; after any other
    event the token is what it was or absent. *)
Theorem token_written_only_on_success (e : Event) (w : World) :
  match e with
  | DoLogin _ (Fulfilled r) | DoRegister _ (Fulfilled r) =>
      localStorage (step e w) !! "authToken" = Some (access_token r)
  | _ =>
      localStorage (step e w) !! "authToken" = localStorage w !! "authToken" ∨
      localStorage (step e w) !! "authToken" = None
  end.
Proof.
  rewrite step_storage, handle_storage.
  destruct e as [|credentials [resp|error]|userData [resp|error]| |role|[data|error]];
    rewrite ?lookup_insert_eq; try done; try (by left);
    try (destruct (is_401 error)); try (destruct (awaited w));
    rewrite ?lookup_delete_eq; auto.
Qed.

Lemma run_effect_quiet (w : World) :
  quiet w →
  log (exec run_effect w) = log w ∧
  awaited (exec run_effect w) = awaited w ∧
  (isLoading (exec run_effect w) = isLoading w ∨ isLoading (exec run_effect w) = false).
Proof.
  intros Hq. eff_run.
  destruct (decide (effectDeps w = Some (skipInitialization w))) as [Heq|Hne].
  { rewrite bool_decide_eq_true_2 by done. simpl. auto. }
  rewrite bool_decide_eq_false_2 by done. simpl.
  destruct (skipInitialization w) eqn:Hs; simpl; [auto|].
  destruct Hq as [Hq|[Hq|Hq]]; [congruence|congruence|]. rewrite Hq. simpl. auto.
Qed.

Lemma handle_quiet (e : Event) (w : World) : settled w → quiet (exec (handle e) w).
Proof.
  intros Hw. unfold settled, quiet in *.
  destruct (handle_bookkeeping e w) as (Hs & Hd & _).
  rewrite Hs, Hd, Hw.
  destruct e as [|credentials [resp|error]|userData [resp|error]| |role|o];
    simpl; auto.
  right. right. by rewrite lookup_delete_eq.
Qed.

Lemma me_requests_app (l1 l2 : list Action) :
  me_requests (l1 ++ l2) = (me_requests l1 + me_requests l2)%nat.
Proof. unfold me_requests. by rewrite List.filter_app, length_app. Qed.

Lemma me_requests_snoc (l : list Action) (a : Action) :
  me_requests (l ++ [a])
    = (me_requests l + if is_me_request a then 1 else 0)%nat.
Proof. rewrite me_requests_app. unfold me_requests. simpl. by destruct (is_me_request a). Qed.

Lemma handle_me_requests (e : Event) (w : World) :
  me_requests (log (exec (handle e) w)) = me_requests (log w).
Proof.
  destruct e as [|credentials [resp|error]|userData [resp|error]| |role|[data|error]];
    unfold handle; eff_run; try done;
    try (interceptor_cases error);
    try (destruct (user w)); try (destruct (awaited w)); simpl;
    try (interceptor_cases error);
    rewrite ?me_requests_snoc; simpl; lia.
Qed.

Lemma step_me_requests (e : Event) (w : World) :
  settled w → me_requests (log (step e w)) = me_requests (log w).
Proof.
  intros Hw. unfold step.
  destruct (run_effect_quiet _ (handle_quiet e w Hw)) as (-> & _).
  apply handle_me_requests.
Qed.

Lemma run_me_requests (es : list Event) (w : World) :
  settled w → me_requests (log (run es w)) = me_requests (log w).
Proof.
  revert w. induction es as [|e es IH]; intros w Hw; [done|].
  simpl. change (foldl _ (step e w) es) with (run es (step e w)).
  rewrite IH by apply step_settles. by apply step_me_requests.
Qed.

(** X13. Over the whole life of a page, whatever is done after mount,
    [GET /auth/me] is requested exactly once when a usable token was
    stored at load and never otherwise: the later runs of the resolver
    find no token. *)
Theorem auth_me_requested_at_most_once
    (storage : gmap string string) (path : string) (es : list Event) :
  me_requests (log (run (Mount :: es) (fresh storage path)))
    = if Js.truthy_opt (storage !! "authToken") then 1%nat else 0%nat.
Proof.
  change (run (Mount :: es) (fresh storage path))
    with (run es (step Mount (fresh storage path))).
  rewrite run_me_requests by apply step_settles.
  destruct (Js.truthy_opt (storage !! "authToken")) eqn:Htok.
  - by rewrite (mount_with_token _ _ Htok).
  - by rewrite (mount_without_token _ _ Htok).
Qed.

Lemma handle_rested (e : Event) (w : World) : rested w → rested (exec (handle e) w).
Proof.
  unfold rested.
  destruct e as [|credentials [resp|error]|userData [resp|error]| |role|[data|error]];
    unfold handle; eff_run; try done;
    try (interceptor_cases error; done);
    try (by destruct (user w)).
  - destruct (awaited w) as [|n] eqn:Ha; simpl; rewrite ?Ha; [done|].
    intros [Hle _]. split; [lia|done].
  - destruct (awaited w) as [|n] eqn:Ha; simpl; rewrite ?Ha; [done|].
    intros [Hle _]. interceptor_cases error; (split; [lia|done]).
Qed.

Lemma step_rested (e : Event) (w : World) : settled w → rested w → rested (step e w).
Proof.
  intros Hs Hw. unfold step.
  destruct (run_effect_quiet _ (handle_quiet e w Hs)) as (_ & Ha & Hl).
  destruct (handle_rested e w Hw) as [Hle H0].
  unfold rested. rewrite Ha. split; [done|].
  intros Hz. destruct Hl as [-> | ->]; [by apply H0|done].
Qed.

(** X14. Loading never gets stuck: after mount and any later events, at
    most one identity fetch is awaited, and whenever none is awaited
    [isLoading] is false. *)
Theorem loading_ends
    (storage : gmap string string) (path : string) (es : list Event) :
  (awaited (run (Mount :: es) (fresh storage path)) <= 1)%nat ∧
  (awaited (run (Mount :: es) (fresh storage path)) = 0%nat →
     isLoading (run (Mount :: es) (fresh storage path)) = false).
Proof.
  change (run (Mount :: es) (fresh storage path))
    with (run es (step Mount (fresh storage path))).
  assert (H0 : settled (step Mount (fresh storage path))) by apply step_settles.
  assert (H1 : rested (step Mount (fresh storage path))).
  { destruct (Js.truthy_opt (storage !! "authToken")) eqn:Htok.
    - rewrite (mount_with_token _ _ Htok). split; simpl; [lia|done].
    - rewrite (mount_without_token _ _ Htok). split; simpl; [lia|done]. }
  revert H0 H1. generalize (step Mount (fresh storage path)).
  induction es as [|e es IH]; intros w Hs Hr; [exact Hr|].
  simpl. change (foldl _ (step e w) es) with (run es (step e w)).
  apply IH; [apply step_settles | by apply step_rested].
Qed.

End MachineFacts.

(** ** Races and headers *)

Section RaceFacts.
Import Eff Api Auth States.

Lemma run_effect_user (w : World) : user (exec run_effect w) = user w.
Proof.
  pose proof (run_effect_session w) as Hse. unfold session in Hse. congruence.
Qed.

(** X15. An identity fetch still awaited decides the session when it
    settles, whatever login, register or logout did meanwhile and whether
    or not the latch is set: fulfilled, its identity replaces the current
    one; rejected, token and identity are cleared. Either way loading
    ends. *)
Theorem stale_resolution_overrides
    (w : World) (u : UnifiedUser) (error : AxiosError) :
  settled w → awaited w ≠ 0%nat →
  (user (step (MeSettled (Fulfilled u)) w) = Some u ∧
   localStorage (step (MeSettled (Fulfilled u)) w) = localStorage w ∧
   isLoading (step (MeSettled (Fulfilled u)) w) = false) ∧
  (session (step (MeSettled (Rejected error)) w) = (None, None, skipInitialization w) ∧
   isLoading (step (MeSettled (Rejected error)) w) = false).
Proof.
  intros Hs Ha.
  assert (Hload : ∀ o, isLoading (exec (handle (MeSettled o)) w) = false →
                       isLoading (step (MeSettled o) w) = false).
  { intros o Ho. unfold step.
    destruct (run_effect_quiet _ (handle_quiet (MeSettled o) w Hs)) as (_ & _ & [Hl|Hl]);
      congruence. }
  destruct (awaited w) as [|n] eqn:Hn; [done|]. split.
  - split; [|split].
    + unfold step. rewrite run_effect_user.
      unfold handle. eff_run. by rewrite Hn.
    + rewrite step_storage, handle_storage. done.
    + apply Hload. unfold handle. eff_run. by rewrite Hn.
  - split.
    + unfold step. rewrite run_effect_session. unfold session, handle. eff_run.
      rewrite Hn. simpl. interceptor_cases error;
        rewrite ?delete_delete_eq, lookup_delete_eq; done.
    + apply Hload. unfold handle. eff_run. rewrite Hn. simpl.
      interceptor_cases error; done.
Qed.

Lemma stale_resolution_overrides_witness :
  (user (step (MeSettled (Fulfilled Sample.passenger)) Sample.early_login)
     = Some Sample.passenger ∧
   localStorage (step (MeSettled (Fulfilled Sample.passenger)) Sample.early_login)
     = localStorage Sample.early_login ∧
   isLoading (step (MeSettled (Fulfilled Sample.passenger)) Sample.early_login) = false) ∧
  (session (step (MeSettled (Rejected Sample.offline)) Sample.early_login)
     = (None, None, skipInitialization Sample.early_login) ∧
   isLoading (step (MeSettled (Rejected Sample.offline)) Sample.early_login) = false).
Proof.
  apply (stale_resolution_overrides Sample.early_login Sample.passenger Sample.offline).
  - vm_compute. reflexivity.
  - vm_compute. discriminate.
Defined.

Lemma call_logs_request (A : Type) (s : Surface) (m : Method) (url : string)
    (o : Settled A) (w : World) :
  ∃ rest, log (exec (call s m url o) w) = (log w ++ Request m url (bearer w) :: rest)%list.
Proof.
  unfold bearer. destruct o as [data|error]; eff_run.
  - by exists [].
  - interceptor_cases error; rewrite <- ?app_assoc; simpl; eauto.
Qed.

(** X16. Every call through either client goes out with the header made
    from the token stored at that moment: after a fulfilled login with a
    non-empty token the next call carries [Bearer <token>], after a
    logout or a 401 it carries no [Authorization] header. *)
Theorem requests_carry_current_token
    (A : Type) (s : Surface) (m : Method) (url : string) (o : Settled A) (w : World) :
  (∃ rest, log (exec (call s m url o) w)
             = (log w ++ Request m url (bearer w) :: rest)%list) ∧
  (∀ credentials r, access_token r ≠ ""%string →
     bearer (exec (login credentials (Fulfilled r)) w)
       = Some ("Bearer " ++ access_token r)%string) ∧
  bearer (exec logout w) = None ∧
  (∀ error, is_401 error = true →
     bearer (exec (response_error_interceptor (A:=A) s error) w) = None).
Proof.
  split; [apply call_logs_request|]. split; [|split].
  - intros credentials r Hne. unfold bearer. eff_run.
    rewrite lookup_insert_eq. destruct (access_token r); done.
  - unfold bearer. eff_run. by rewrite lookup_delete_eq.
  - intros error H401. unfold bearer. eff_run. rewrite H401. simpl.
    destruct (Js.includes (pathname w) "/login"); simpl; by rewrite lookup_delete_eq.
Qed.

Lemma requests_carry_current_token_witness :
  bearer (exec (login Sample.credentials (Fulfilled Sample.granted)) Sample.anonymous)
    = Some "Bearer T"%string ∧
  bearer (exec (response_error_interceptor (A:=unit) adminApi Sample.unauthorized)
            Sample.admin_at_work) = None.
Proof.
  destruct (requests_carry_current_token unit adminApi GET "/users"
              (Rejected Sample.unauthorized) Sample.anonymous) as (_ & Hlogin & _ & _).
  destruct (requests_carry_current_token unit adminApi GET "/users"
              (Rejected Sample.unauthorized) Sample.admin_at_work) as (_ & _ & _ & H401).
  split.
  - exact (Hlogin Sample.credentials Sample.granted ltac:(discriminate)).
  - exact (H401 Sample.unauthorized eq_refl).
Defined.

End RaceFacts.

(** ** The sign-in and sign-up pages *)

Section PageFacts.
Import Eff Api Auth Guards Pages.

(** X17. When the login request is rejected with an error whose
    response [detail] and whose [message], where present, are strings,
    [AdminLoginPage] ends with [isSubmitting = false] and shows exactly
    [handleApiError]'s text, which is then not empty, so the page's own
    fallback text is not shown; the identity and the page's navigation
    are as before. *)
Theorem admin_login_failure_shows_detail
    (credentials : UserLoginRequest) (error : AxiosError) (w : World)
    (state_from : option string) :
  isSubmitting (admin_login_handleSubmit credentials (Rejected error) w).1 = false ∧
  Pages.error (admin_login_handleSubmit credentials (Rejected error) w).1
    = detail (handleApiError (OfAxios error)) ∧
  Pages.error (admin_login_handleSubmit credentials (Rejected error) w).1 ≠ ""%string ∧
  user (admin_login_handleSubmit credentials (Rejected error) w).2 = user w ∧
  admin_login_effect state_from (admin_login_handleSubmit credentials (Rejected error) w).2
    = admin_login_effect state_from w.
Proof.
  destruct (handleApiError_total (OfAxios error)) as [Hne _].
  assert (Hu : user (admin_login_handleSubmit credentials (Rejected error) w).2 = user w).
  { unfold admin_login_handleSubmit. rewrite login_rejected. simpl.
    rewrite run_effect_user.
    by destruct (call_rejected AuthResponse POST "/auth/login" error w)
      as (_ & _ & _ & [= -> _ _]). }
  unfold admin_login_effect, isAdminAuthenticated. rewrite Hu.
  unfold admin_login_handleSubmit. rewrite login_rejected.
  remember (detail (handleApiError (OfAxios error))) as d eqn:Hd.
  simpl. destruct d; done.
Qed.

Lemma login_fulfilled (credentials : UserLoginRequest) (r : AuthResponse) (w : World) :
  ∃ w', login credentials (Fulfilled r) w = (Returned r, w') ∧
        user w' = Some (Types.user r) ∧
        localStorage w' !! "authToken" = Some (access_token r).
Proof.
  eexists. split; [reflexivity|]. simpl. by rewrite lookup_insert_eq.
Qed.

Lemma admin_login_success (credentials : UserLoginRequest) (r : AuthResponse) (w : World) :
  admin_login_handleSubmit credentials (Fulfilled r) w
    = ({| Pages.error := ""; isSubmitting := false |},
       step (DoLogin credentials (Fulfilled r)) w) ∧
  user (step (DoLogin credentials (Fulfilled r)) w) = Some (Types.user r) ∧
  localStorage (step (DoLogin credentials (Fulfilled r)) w) !! "authToken"
    = Some (access_token r).
Proof.
  split; [reflexivity|]. unfold step.
  rewrite run_effect_user, run_effect_storage.
  split; [reflexivity|]. simpl. by rewrite lookup_insert_eq.
Qed.

(** X18. The Admin Guard and [AdminLoginPage] round-trip the attempted
    location (its pathname): what the guard hands over as [from] when it
    redirects an absent identity is where the page navigates after an
    administrator has signed in; with no [from] the page goes to
    [/admin/dashboard]. *)
Theorem admin_login_returns_to_attempted_location
    (credentials : UserLoginRequest) (r : AuthResponse) (w : World)
    (requiredRole : option string) (location : string) :
  is_admin (Types.user r) = true → location ≠ ""%string →
  AdminProtectedRoute false None requiredRole location
    = NavigateTo "/admin/login" location ∧
  admin_login_effect (Some location)
    (admin_login_handleSubmit credentials (Fulfilled r) w).2 = Some location ∧
  admin_login_effect None
    (admin_login_handleSubmit credentials (Fulfilled r) w).2 = Some "/admin/dashboard"%string.
Proof.
  intros Hadmin Hloc. split; [reflexivity|].
  destruct (admin_login_success credentials r w) as (-> & Hu & _). simpl.
  unfold admin_login_effect, isAdminAuthenticated. rewrite Hu, Hadmin.
  split; [|reflexivity]. simpl. destruct location; done.
Qed.

Lemma admin_login_returns_to_attempted_location_witness :
  AdminProtectedRoute false None None "/admin/stations"
    = NavigateTo "/admin/login" "/admin/stations" ∧
  admin_login_effect (Some "/admin/stations"%string)
    (admin_login_handleSubmit Sample.credentials (Fulfilled Sample.granted_operator)
       Sample.anonymous).2 = Some "/admin/stations"%string ∧
  admin_login_effect None
    (admin_login_handleSubmit Sample.credentials (Fulfilled Sample.granted_operator)
       Sample.anonymous).2 = Some "/admin/dashboard"%string.
Proof.
  apply (admin_login_returns_to_attempted_location Sample.credentials
           Sample.granted_operator Sample.anonymous None "/admin/stations").
  - reflexivity.
  - discriminate.
Defined.

(** X19. When somebody who is not an administrator signs in on
    [AdminLoginPage], the token is stored and the identity installed,
    but the page shows no error and does not navigate, and the Admin
    Guard keeps redirecting to [/admin/login]. *)
Theorem admin_login_non_admin_stays
    (credentials : UserLoginRequest) (r : AuthResponse) (w : World)
    (state_from requiredRole : option string) (location : string) :
  is_admin (Types.user r) = false →
  (admin_login_handleSubmit credentials (Fulfilled r) w).1
    = {| Pages.error := ""; isSubmitting := false |} ∧
  admin_login_effect state_from (admin_login_handleSubmit credentials (Fulfilled r) w).2
    = None ∧
  localStorage (admin_login_handleSubmit credentials (Fulfilled r) w).2 !! "authToken"
    = Some (access_token r) ∧
  isAuthenticated (admin_login_handleSubmit credentials (Fulfilled r) w).2 = true ∧
  AdminProtectedRoute false (user (admin_login_handleSubmit credentials (Fulfilled r) w).2)
    requiredRole location = NavigateTo "/admin/login" location.
Proof.
  intros Hadmin.
  destruct (admin_login_success credentials r w) as (-> & Hu & Ht). simpl.
  unfold admin_login_effect, isAdminAuthenticated, isAuthenticated, AdminProtectedRoute.
  rewrite Hu, Ht, Hadmin. done.
Qed.

Lemma admin_login_non_admin_stays_witness :
  (admin_login_handleSubmit Sample.credentials (Fulfilled Sample.granted)
     Sample.anonymous).1 = {| Pages.error := ""; isSubmitting := false |} ∧
  admin_login_effect None
    (admin_login_handleSubmit Sample.credentials (Fulfilled Sample.granted)
       Sample.anonymous).2 = None ∧
  localStorage (admin_login_handleSubmit Sample.credentials (Fulfilled Sample.granted)
                  Sample.anonymous).2 !! "authToken" = Some (access_token Sample.granted) ∧
  isAuthenticated (admin_login_handleSubmit Sample.credentials (Fulfilled Sample.granted)
                     Sample.anonymous).2 = true ∧
  AdminProtectedRoute false
    (user (admin_login_handleSubmit Sample.credentials (Fulfilled Sample.granted)
             Sample.anonymous).2) None "/admin/users"
    = NavigateTo "/admin/login" "/admin/users".
Proof.
  exact (admin_login_non_admin_stays Sample.credentials Sample.granted Sample.anonymous
           None None "/admin/users" eq_refl).
Defined.

(** X20. [RegisterPage] sends nothing and changes nothing unless the two
    passwords are equal and at least 6 characters long; a mismatch is
    reported before a short password. When both tests pass, the
    registration request goes out, and a fulfilled one makes the page
    navigate to [/dashboard]. *)
Theorem register_page_validates
    (formData : RegisterForm) (o : Settled AuthResponse) (w : World) :
  (form_password formData ≠ form_confirmPassword formData →
     register_handleSubmit formData o w
       = ({| Pages.error := "Passwords do not match"; isSubmitting := false |}, w)) ∧
  (form_password formData = form_confirmPassword formData →
   (String.length (form_password formData) < 6)%nat →
     register_handleSubmit formData o w
       = ({| Pages.error := "Password must be at least 6 characters long";
             isSubmitting := false |}, w)) ∧
  (form_password formData = form_confirmPassword formData →
   (6 <= String.length (form_password formData))%nat →
     (∃ rest, log (register_handleSubmit formData o w).2
                = (log w ++ Request POST "/auth/register" (bearer w) :: rest)%list) ∧
     (∀ r, o = Fulfilled r →
        register_effect (register_handleSubmit formData o w).2 = Some "/dashboard"%string)).
Proof.
  unfold register_handleSubmit. split; [|split].
  - intros Hne. apply String.eqb_neq in Hne. by rewrite Hne.
  - intros Heq Hlen. apply String.eqb_eq in Heq. rewrite Heq. simpl.
    apply Nat.ltb_lt in Hlen. by rewrite Hlen.
  - intros Heq Hlen. apply String.eqb_eq in Heq. rewrite Heq. simpl.
    apply Nat.ltb_ge in Hlen. rewrite Hlen.
    set (userData := {| register_name := form_name formData;
                        register_email := form_email formData;
                        register_password := form_password formData |}).
    assert (Hlog : ∀ w', log (exec run_effect w') = log w' ∨
                         ∃ h, log (exec run_effect w')
                                = (log w' ++ [Request GET "/auth/me" h])%list).
    { intros w'. eff_run. destruct (bool_decide _); simpl; [by left|].
      destruct (skipInitialization w'); simpl; [by left|].
      destruct (Js.truthy_opt _); simpl; [right; eauto | by left]. }
    split.
    + destruct o as [r|error].
      * assert (Hreg : register userData (Fulfilled r) w
                       = (Returned tt, exec (register userData (Fulfilled r)) w))
          by reflexivity.
        rewrite Hreg. simpl.
        destruct (Hlog (exec (register userData (Fulfilled r)) w)) as [->|[h ->]];
          unfold bearer; eff_run; rewrite <- ?app_assoc; simpl; eauto.
      * assert (Hreg : ∃ msg, register userData (Rejected error) w
                       = (Thrown (Error msg), exec (register userData (Rejected error)) w)).
        { eff_run. interceptor_cases error; eauto. }
        destruct Hreg as [msg ->]. simpl.
        destruct (Hlog (exec (register userData (Rejected error)) w)) as [->|[h ->]];
          unfold bearer; eff_run; interceptor_cases error;
          rewrite <- ?app_assoc; simpl; eauto.
    + intros r ->.
      assert (Hreg : register userData (Fulfilled r) w
                     = (Returned tt, exec (register userData (Fulfilled r)) w))
        by reflexivity.
      rewrite Hreg. simpl. unfold register_effect, isAuthenticated.
      rewrite run_effect_user. reflexivity.
Qed.

Lemma register_page_validates_witness :
  register_handleSubmit
    {| form_name := "A"; form_email := "a@b.com";
       form_password := "secret1"; form_confirmPassword := "secret2" |}
    (Fulfilled Sample.granted) Sample.anonymous
    = ({| Pages.error := "Passwords do not match"; isSubmitting := false |},
       Sample.anonymous) ∧
  register_handleSubmit
    {| form_name := "A"; form_email := "a@b.com";
       form_password := "abc"; form_confirmPassword := "abc" |}
    (Fulfilled Sample.granted) Sample.anonymous
    = ({| Pages.error := "Password must be at least 6 characters long";
          isSubmitting := false |}, Sample.anonymous) ∧
  register_effect
    (register_handleSubmit
       {| form_name := "A"; form_email := "a@b.com";
          form_password := "secret"; form_confirmPassword := "secret" |}
       (Fulfilled Sample.granted) Sample.anonymous).2 = Some "/dashboard"%string.
Proof.
  split; [|split].
  - apply (register_page_validates
             {| form_name := "A"; form_email := "a@b.com";
                form_password := "secret1"; form_confirmPassword := "secret2" |}).
    discriminate.
  - apply (register_page_validates
             {| form_name := "A"; form_email := "a@b.com";
                form_password := "abc"; form_confirmPassword := "abc" |}).
    + reflexivity.
    + simpl. lia.
  - refine (proj2 (proj2 (proj2 (register_page_validates
             {| form_name := "A"; form_email := "a@b.com";
                form_password := "secret"; form_confirmPassword := "secret" |}
             (Fulfilled Sample.granted) Sample.anonymous)) eq_refl _) _ eq_refl).
    simpl. lia.
Defined.

End PageFacts.

(** ** A failed login and the browser's location *)

Section LoginNavigationFacts.
Import Eff Api Auth.

(** X21. A rejected [login] never navigates when the page's pathname
    contains [/login] (both login pages) or when the answer is not a
    401; a 401 received on any other page sends the browser to
    [/login]. *)
Theorem login_failure_navigation
    (credentials : UserLoginRequest) (error : AxiosError) (w : World) :
  (Js.includes (pathname w) "/login" = true ∨ is_401 error = false →
     ∀ href, Assign href
               ∉ drop (length (log w)) (log (exec (login credentials (Rejected error)) w))) ∧
  (Js.includes (pathname w) "/login" = false → is_401 error = true →
     Assign "/login"
       ∈ drop (length (log w)) (log (exec (login credentials (Rejected error)) w))).
Proof.
  pose proof (call_rejected AuthResponse POST "/auth/login" error w)
    as (_ & _ & Hlog & _).
  unfold exec at 1 2. rewrite login_rejected. simpl.
  rewrite Hlog, drop_app_length. split.
  - intros Hcase href.
    destruct (is_401 error); [destruct (Js.includes (pathname w) "/login")|];
      try (destruct Hcase; discriminate);
      rewrite !not_elem_of_cons; repeat split;
      first [discriminate | apply not_elem_of_nil].
  - intros -> ->. right. right. left.
Qed.

Lemma login_failure_navigation_witness :
  (∀ href, Assign href
             ∉ drop (length (log Sample.on_login_page))
                 (log (exec (login Sample.credentials (Rejected Sample.unauthorized))
                         Sample.on_login_page))) ∧
  Assign "/login"
    ∈ drop (length (log Sample.returning))
        (log (exec (login Sample.credentials (Rejected Sample.unauthorized))
                Sample.returning)).
Proof.
  split.
  - apply (login_failure_navigation Sample.credentials Sample.unauthorized
             Sample.on_login_page).
    left. reflexivity.
  - apply (login_failure_navigation Sample.credentials Sample.unauthorized
             Sample.returning); reflexivity.
Defined.

End LoginNavigationFacts.
